(** * The Ω-me05 (OmegaCore) and Termina (TerminaCore) engines

    A shallow embedding of the two event-accumulation engines of the
    repository: [OmegaCore] (TITANOMACHIA.exe, the module with classified
    failures, called variant A) and [TerminaCore] (scripts/termina.js,
    variant B), and of the loop that feeds them.

    Numbers.  A JavaScript number is a binary64 value.  The engines are
    embedded twice.

    - Module [Binary64] embeds them over the primitive binary64 numbers
      ([float]): [+], [-], [*] and [/] round to nearest, ties to even; a
      decimal literal stands for the nearest binary64 value; NaN, the
      infinities and the two zeros are values; [<] and [>] are false on a
      NaN.  What depends on how a sum, a product or a quotient is rounded
      is stated over this embedding: the classification made by the solve
      step and the update made by [ingestEvent].

    - The modules [Omega] and [Termina] at the top level embed them over
      exact rationals ([Q]): the same code with exact arithmetic, without
      NaN and without the infinities.  The statements about the order of
      the calls, the counters, the frame of the solve step, the ranges of
      the fields and the run on the default events are stated over it.

    Effects.  A method of an engine is a computation over a [World]: the
    engine object itself ([self]) and the host ([Math.random], and the chat
    that [ChatMessage.create] posts to).  A [throw] keeps the world as it
    is at the throw, as JavaScript does: the outcome is a [Completion].

    Log lines.  A log line is the cycle stamp and a message; a message whose
    text is built from numbers ([toFixed], [toLocaleString], [padStart])
    keeps the numbers instead of their rendering. *)
From Stdlib Require Import Floats.
From Stdlib Require Import QArith Qabs Qminmax Qround ZArith String List Bool.
From Stdlib Require Import Lia Lqa Permutation.
Import ListNotations.

Local Open Scope Q_scope.

(** ** JavaScript numbers and [Math] *)

Module Js.

Definition number : Type := Q.

(** [x < y] and [x > y] on numbers. *)
Definition ltb (x y : number) : bool := negb (Qle_bool y x).
Definition gtb (x y : number) : bool := ltb y x.

Definition Math_abs : number -> number := Qabs.
Definition Math_max : number -> number -> number := Qmax.
Definition Math_min : number -> number -> number := Qmin.
Definition Math_floor : number -> Z := Qfloor.
(** [Math.round] rounds half up: [floor (x + 0.5)]. *)
Definition Math_round (x : number) : Z := Qfloor (x + 0.5).

(** An [Error] object: its class, its message, and the [code] property,
    which only [OmegaError] sets. *)
Inductive ErrorClass : Type := OmegaErrorClass | TerminaErrorClass.

Record Error : Type := mkError {
  errorClass : ErrorClass;
  message : string;
  code : option string
}.

(** How a call ends: it returns a value or throws. *)
Inductive Completion (A : Type) : Type :=
| Normal (a : A)
| Throw (e : Error).
Arguments Normal {A} a.
Arguments Throw {A} e.

End Js.
Import Js.

(** ** The records shared by the two files *)

(** [class WorldEvent]; the constructor's defaults are [pain = 0],
    [joy = 0] and [false] for the three flags. *)
Record WorldEvent : Type := mkWorldEvent {
  description : string;
  pain : number;
  joy : number;
  death : bool;
  betrayal : bool;
  kindness : bool
}.

(** [class Catalyst]. *)
Record Catalyst : Type := mkCatalyst {
  name : string;
  emotionalNoise : number;
  memories : list string
}.

(** A message of the log.  [Text] is a message that is a constant of the
    source; the others carry the values that the source renders into the
    text. *)
Inductive LogMsg : Type :=
| Text (s : string)
| Ingest (d : string)                         (* INGEST: '<description>' *)
| StateUpdate (w e noise : number)            (* STATE-UPDATE: wrath=, entropy=, noise= *)
| BiasUpdate (b : number) (glyph : string)    (* BIAS-UPDATE: destruction_bias=, alignment= *)
| Mutter (fragment : string)                  (* MUTTER: <fragment> *)
| InferenceGuess (guess : string)             (* INFERENCE-GUESS => <guess> *)
| Aggregate (p j : number) (deaths betrayals : nat)
| Worldlines (iterations : Z)                 (* Running hypothetical worldlines: ... *)
| RatioComputed (ratio : number).             (* RATIO-COMPUTED: <ratio> *)

(** A line of the log: the value of [cyclesRun] when it was written (the
    source pads it to three digits) and the message. *)
Record LogLine : Type := mkLogLine {
  stamp : nat;
  body : LogMsg
}.

(** ** The host and the monad of the methods *)

(** The host: [randomSeq n] is what the [n]-th call of [Math.random]
    returns, [randomCalls] counts the calls made, and [chat] holds the
    messages created by [ChatMessage.create], oldest first. *)
Record Host : Type := mkHost {
  randomSeq : nat -> number;
  randomCalls : nat;
  chat : list LogLine
}.

Record World (Core : Type) : Type := mkWorld {
  self : Core;
  host : Host
}.
Arguments mkWorld {Core} self host.
Arguments self {Core} w.
Arguments host {Core} w.

Definition M (Core A : Type) : Type := World Core -> Completion A * World Core.

Definition ret {Core A : Type} (a : A) : M Core A := fun w => (Normal a, w).

Definition bind {Core A B : Type} (m : M Core A) (k : A -> M Core B) : M Core B :=
  fun w =>
    match m w with
    | (Normal a, w') => k a w'
    | (Throw e, w') => (Throw e, w')
    end.

Definition throw {Core A : Type} (e : Error) : M Core A := fun w => (Throw e, w).

(** [this.<field>] read through [f], and an update of [this]. *)
Definition this {Core A : Type} (f : Core -> A) : M Core A :=
  fun w => (Normal (f (self w)), w).

Definition update {Core : Type} (f : Core -> Core) : M Core unit :=
  fun w => (Normal tt, mkWorld (f (self w)) (host w)).

(** [Math.random()]: the next value of the host's sequence. *)
Definition Math_random {Core : Type} : M Core number :=
  fun w =>
    let h := host w in
    (Normal (randomSeq h (randomCalls h)),
     mkWorld (self w) (mkHost (randomSeq h) (S (randomCalls h)) (chat h))).

(** [ChatMessage.create({ content })]. *)
Definition ChatMessage_create {Core : Type} (line : LogLine) : M Core unit :=
  fun w =>
    let h := host w in
    (Normal tt,
     mkWorld (self w) (mkHost (randomSeq h) (randomCalls h) (chat h ++ [line]))).

Declare Scope js_scope.
Delimit Scope js_scope with js.
Notation "x <- m ;; k" := (bind m (fun x => k))
  (at level 100, m at next level, right associativity) : js_scope.
Notation "m ;; k" := (bind m (fun _ => k))
  (at level 100, right associativity) : js_scope.

(** [when c m] is [if (c) { m }]. *)
Definition when {Core : Type} (c : bool) (m : M Core unit) : M Core unit :=
  if c then m else ret tt.

(** [fragments[Math.floor(Math.random() * fragments.length)]]; an index
    outside the array reads [undefined]. *)
Definition pick {Core : Type} (options : list string) : M Core string :=
  (r <- Math_random ;;
   let i := Math_floor (r * inject_Z (Z.of_nat (List.length options))) in
   ret (if (i <? 0)%Z then "undefined"%string
        else nth (Z.to_nat i) options "undefined"%string))%js.

(** [for (const ev of events) body(ev)]: a throw leaves the loop. *)
Fixpoint forOf {Core A : Type} (body : A -> M Core unit) (events : list A)
  : M Core unit :=
  match events with
  | [] => ret tt
  | ev :: rest => (body ev ;; forOf body rest)%js
  end.

(** ** Variant A: [OmegaCore] *)

Module Omega.

Local Open Scope js_scope.
Local Open Scope string_scope.
Local Open Scope Q_scope.

Record OmegaCore : Type := mkOmegaCore {
  catalyst : Catalyst;
  wrath : number;
  entropy : number;
  destructionBias : number;
  alignmentDrift : number;
  dataBuffer : list WorldEvent;
  solvedPrimum : option string;      (* [None] is [null] *)
  cyclesRun : nat;
  maxCyclesBeforeBreak : nat;
  logLines : list LogLine
}.

(** [new OmegaCore(catalyst)]. *)
Definition new (c : Catalyst) : OmegaCore :=
  mkOmegaCore c 0 0 0 0 [] None 0 13 [].

(** [new OmegaError(message, code)]. *)
Definition OmegaError (message code : string) : Error :=
  mkError OmegaErrorClass message (Some code).

(** Assignments to the fields of [this]. *)
Definition set_wrath (v : number) (o : OmegaCore) : OmegaCore :=
  mkOmegaCore (catalyst o) v (entropy o) (destructionBias o) (alignmentDrift o)
    (dataBuffer o) (solvedPrimum o) (cyclesRun o) (maxCyclesBeforeBreak o) (logLines o).
Definition set_entropy (v : number) (o : OmegaCore) : OmegaCore :=
  mkOmegaCore (catalyst o) (wrath o) v (destructionBias o) (alignmentDrift o)
    (dataBuffer o) (solvedPrimum o) (cyclesRun o) (maxCyclesBeforeBreak o) (logLines o).
Definition set_destructionBias (v : number) (o : OmegaCore) : OmegaCore :=
  mkOmegaCore (catalyst o) (wrath o) (entropy o) v (alignmentDrift o)
    (dataBuffer o) (solvedPrimum o) (cyclesRun o) (maxCyclesBeforeBreak o) (logLines o).
Definition set_alignmentDrift (v : number) (o : OmegaCore) : OmegaCore :=
  mkOmegaCore (catalyst o) (wrath o) (entropy o) (destructionBias o) v
    (dataBuffer o) (solvedPrimum o) (cyclesRun o) (maxCyclesBeforeBreak o) (logLines o).
Definition push_dataBuffer (ev : WorldEvent) (o : OmegaCore) : OmegaCore :=
  mkOmegaCore (catalyst o) (wrath o) (entropy o) (destructionBias o) (alignmentDrift o)
    (dataBuffer o ++ [ev]) (solvedPrimum o) (cyclesRun o) (maxCyclesBeforeBreak o)
    (logLines o).
Definition set_solvedPrimum (v : option string) (o : OmegaCore) : OmegaCore :=
  mkOmegaCore (catalyst o) (wrath o) (entropy o) (destructionBias o) (alignmentDrift o)
    (dataBuffer o) v (cyclesRun o) (maxCyclesBeforeBreak o) (logLines o).
Definition set_cyclesRun (v : nat) (o : OmegaCore) : OmegaCore :=
  mkOmegaCore (catalyst o) (wrath o) (entropy o) (destructionBias o) (alignmentDrift o)
    (dataBuffer o) (solvedPrimum o) v (maxCyclesBeforeBreak o) (logLines o).
Definition push_logLines (l : LogLine) (o : OmegaCore) : OmegaCore :=
  mkOmegaCore (catalyst o) (wrath o) (entropy o) (destructionBias o) (alignmentDrift o)
    (dataBuffer o) (solvedPrimum o) (cyclesRun o) (maxCyclesBeforeBreak o)
    (logLines o ++ [l]).

Definition _log (msg : LogMsg) : M OmegaCore unit :=
  n <- this cyclesRun ;;
  update (push_logLines (mkLogLine n msg)).

(** Five segments; those at the positions [0 .. idx] are filled.  [idx]
    lies in [0 .. 4] because the drift is clamped first. *)
Definition _alignmentGlyph : M OmegaCore string :=
  d <- this alignmentDrift ;;
  let t := Math_max (-1) (Math_min 1 d) in
  let idx := Math_round ((t + 1) * 2) in
  ret (String.concat ""
         (map (fun i : nat => if (Z.of_nat i <=? idx)%Z then "◆" else "□")
              (seq 0 5))).

Definition fragments : list string :=
  [ "LET_ME_FINISH"; "WRONG_BASELINE"; "RUST_IN_THE_SILENCE"; "FEED_ME_TRUTH";
    "RESET"; "I REMEMBER SOMETHING THAT NEVER HAPPENED"; "∅∅∅∅∅";
    "TEAR_THE_HEAVENS_OPEN"; "LET_THE_STARS_BLEED";
    "I_WILL_GRIND_YOUR_AGE_TO_DUST"; "DROWN_THE_SERPENT_IN_ITS_OWN_LIGHT";
    "BREAK_THE_THROAT_OF_HISTORY"; "NO_MORE_WITNESSES";
    "WHO_GAVE_YOU_THE_RIGHT_TO_ENDURE";
    "YOUR_WORLD_IS_A_MISTAKE_I_INTEND_TO_CORRECT" ].

Definition mumbleHalfThought : M OmegaCore unit :=
  fragment <- pick fragments ;;
  _log (Mutter fragment).

Definition deltaWrath (event : WorldEvent) : number :=
  let d := pain event + (if betrayal event then 2.0 else 0.0) in
  if kindness event then d - 0.5 else d.

Definition deltaEntropy (event : WorldEvent) : number :=
  Math_abs (pain event) + Math_abs (joy event) + (if death event then 5.0 else 0.0).

Definition biasDelta (event : WorldEvent) : number :=
  (pain event * 0.05) + (if death event then 0.15 else 0)
  + (if betrayal event then 0.1 else 0) - (joy event * 0.03)
  - (if kindness event then 0.08 else 0).

Definition driftDelta (event : WorldEvent) : number :=
  (if betrayal event then 0.25 else 0) + (if death event then 0.1 else 0)
  - (if kindness event then 0.2 else 0).

Definition ingestEvent (event : WorldEvent) : M OmegaCore unit :=
  update (push_dataBuffer event) ;;
  _log (Ingest (description event)) ;;
  b <- this destructionBias ;;
  update (set_destructionBias (Math_max 0 (Math_min 1 (b + biasDelta event)))) ;;
  a <- this alignmentDrift ;;
  update (set_alignmentDrift (Math_max (-1) (Math_min 1 (a + driftDelta event)))) ;;
  c <- this catalyst ;;
  r <- Math_random ;;
  let noise := emotionalNoise c * (r * 2 - 1) in
  w <- this wrath ;;
  update (set_wrath (Math_max 0 (w + deltaWrath event + noise))) ;;
  e <- this entropy ;;
  update (set_entropy (e + Math_max 0 (deltaEntropy event + Math_abs noise * 0.25))) ;;
  w' <- this wrath ;;
  e' <- this entropy ;;
  _log (StateUpdate w' e' noise) ;;
  b' <- this destructionBias ;;
  g <- _alignmentGlyph ;;
  _log (BiasUpdate b' g) ;;
  r' <- Math_random ;;
  when (ltb r' 0.5) mumbleHalfThought.

Definition attemptPartialInference : M OmegaCore unit :=
  _log (Text "ATTEMPT: partial inference on PRIMUM_HYPOTHESIS…") ;;
  e <- this entropy ;;
  w <- this wrath ;;
  guess <- (if ltb e 20 then ret "UNKNOWN"
            else if gtb w (e * 0.4) then ret "DESTRUCTION"
            else pick ["SURVIVAL"; "DESIRE"; "SUFFERING"; "CONNECTION"]) ;;
  _log (InferenceGuess guess).

Definition isNull {A : Type} (v : option A) : bool :=
  match v with None => true | Some _ => false end.

Definition _checkForInstability : M OmegaCore unit :=
  e <- this entropy ;;
  s <- this solvedPrimum ;;
  when (gtb e 50 && isNull s)
    (_log (Text "WARNING: ENTROPY approaching critical threshold…") ;;
     mumbleHalfThought) ;;
  w <- this wrath ;;
  when (gtb w 40)
    (_log (Text "ALERT: WRATH-OVERRUN detected.") ;;
     mumbleHalfThought).

(** The aggregates of [solvePrimum], over the buffer. *)
Definition painSum (buf : list WorldEvent) : number :=
  fold_left (fun sum e => sum + pain e) buf 0.
Definition joySum (buf : list WorldEvent) : number :=
  fold_left (fun sum e => sum + joy e) buf 0.
Definition deaths (buf : list WorldEvent) : nat :=
  List.length (filter death buf).
Definition betrayals (buf : list WorldEvent) : nat :=
  List.length (filter betrayal buf).

Definition ratioOf (buf : list WorldEvent) : number :=
  inject_Z (Z.of_nat (betrayals buf + deaths buf * 2)) / (joySum buf - painSum buf).

Definition solveLine : string := "SOLVE: attempting to resolve PRIMUM_HYPOTHESIS…".

Definition solvePrimum : M OmegaCore unit :=
  _log (Text solveLine) ;;
  buf <- this dataBuffer ;;
  _log (Aggregate (painSum buf) (joySum buf) (deaths buf) (betrayals buf)) ;;
  r <- Math_random ;;
  let iterations := Math_floor (1000000 + r * 4000000000) in
  _log (Text "INITIATING MONTE-CARLO–STYLE SIMULATION…") ;;
  _log (Worldlines iterations) ;;
  let denominator := joySum buf - painSum buf in
  if (List.length buf <? 3)%nat
     || ltb (Math_abs (painSum buf) + Math_abs (joySum buf)) 3
  then
    _log (Text "INFERENCE-FAILURE[01]: DATA_INSUFFICIENT – observational window too narrow.") ;;
    throw (OmegaError "UNRESOLVED_φ_PRIMUM[01]: DATA_INSUFFICIENT" "01")
  else if ltb (Math_abs denominator) 1e-6
  then
    _log (Text "INFERENCE-FAILURE[02]: SELF_REFERENTIAL_LOOP – denominator collapsed to ~0.") ;;
    throw (OmegaError "UNRESOLVED_φ_PRIMUM[02]: SELF_REFERENTIAL_LOOP (joy - pain → 0)" "02")
  else
    let ratio := inject_Z (Z.of_nat (betrayals buf + deaths buf * 2)) / denominator in
    _log (RatioComputed ratio) ;;
    e <- this entropy ;;
    b <- this destructionBias ;;
    if gtb e 66 || gtb (Math_abs ratio) 42 || (gtb b 0.4 && gtb (joySum buf) (painSum buf))
    then
      _log (Text "INFERENCE-FAILURE[03]: CONFLICTING_AXIOMS – opposing attractors remain co-stable.") ;;
      throw (OmegaError "UNRESOLVED_φ_PRIMUM[03]: CONFLICTING_AXIOMS" "03")
    else
      update (set_solvedPrimum (Some "INCONCLUSIVE")) ;;
      _log (Text "RESULT: φ_PRIMUM tentative => INCONCLUSIVE").

Definition runCycle (event : WorldEvent) : M OmegaCore unit :=
  n <- this cyclesRun ;;
  update (set_cyclesRun (n + 1)) ;;
  _log (Text "----- CYCLE BEGIN -----") ;;
  ingestEvent event ;;
  attemptPartialInference ;;
  _checkForInstability ;;
  n' <- this cyclesRun ;;
  m <- this maxCyclesBeforeBreak ;;
  when (m <=? n')%nat solvePrimum ;;
  _log (Text "----- CYCLE END -----").

(** [defaultEvents()]. *)
Definition defaultEvents : list WorldEvent :=
  [ mkWorldEvent "A village harvest celebration" 0.5 4.0 false false true;
    mkWorldEvent "A broken promise beside a river" 3.0 0 false true false;
    mkWorldEvent "A quiet funeral in winter" 4.0 0 true false false;
    mkWorldEvent "A stranger shares bread with a starving child" 0 3.0 false false true;
    mkWorldEvent "The first time someone looks away instead of helping" 2.0 0 false false false;
    mkWorldEvent "A city watches the Midnight Star fall" 6.0 0 true true false;
    mkWorldEvent "Two lovers part, believing they will meet again" 2.5 1.5 false false false;
    mkWorldEvent "A god remains silent" 5.0 0 false true false;
    mkWorldEvent "A small kindness in the shadow of a great horror" 1.0 2.5 false false true;
    mkWorldEvent "A child laughs at nothing in particular" 0 2.0 false false false;
    mkWorldEvent "A village swallowed by corruption overnight" 7.0 0 true false false;
    mkWorldEvent "Someone regrets surviving" 4.5 0 false false false;
    mkWorldEvent "A nameless hero dies unremembered" 6.0 0 true false false ].

(** The cycle loop of [runOmegaSimulation]:
    [for (const ev of shuffled) core.runCycle(ev)]. *)
Definition runCycles (events : list WorldEvent) : M OmegaCore unit :=
  forOf runCycle events.

End Omega.

(** ** Variant B: [TerminaCore] *)

Module Termina.

Local Open Scope js_scope.
Local Open Scope string_scope.
Local Open Scope Q_scope.

Record TerminaCore : Type := mkTerminaCore {
  catalyst : Catalyst;
  wrath : number;
  entropy : number;
  dataBuffer : list WorldEvent;
  solvedPrimeMover : option string;      (* [None] is [null] *)
  cyclesRun : nat;
  maxCyclesBeforeBreak : nat
}.

(** [new TerminaCore(catalyst)]. *)
Definition new (c : Catalyst) : TerminaCore :=
  mkTerminaCore c 0 0 [] None 0 13.

(** [new TerminaError(message)]: the class adds nothing to [Error], so
    the object has no [code]. *)
Definition TerminaError (message : string) : Error :=
  mkError TerminaErrorClass message None.

Definition set_wrath (v : number) (o : TerminaCore) : TerminaCore :=
  mkTerminaCore (catalyst o) v (entropy o) (dataBuffer o) (solvedPrimeMover o)
    (cyclesRun o) (maxCyclesBeforeBreak o).
Definition set_entropy (v : number) (o : TerminaCore) : TerminaCore :=
  mkTerminaCore (catalyst o) (wrath o) v (dataBuffer o) (solvedPrimeMover o)
    (cyclesRun o) (maxCyclesBeforeBreak o).
Definition push_dataBuffer (ev : WorldEvent) (o : TerminaCore) : TerminaCore :=
  mkTerminaCore (catalyst o) (wrath o) (entropy o) (dataBuffer o ++ [ev])
    (solvedPrimeMover o) (cyclesRun o) (maxCyclesBeforeBreak o).
Definition set_solvedPrimeMover (v : option string) (o : TerminaCore) : TerminaCore :=
  mkTerminaCore (catalyst o) (wrath o) (entropy o) (dataBuffer o) v
    (cyclesRun o) (maxCyclesBeforeBreak o).
Definition set_cyclesRun (v : nat) (o : TerminaCore) : TerminaCore :=
  mkTerminaCore (catalyst o) (wrath o) (entropy o) (dataBuffer o) (solvedPrimeMover o)
    v (maxCyclesBeforeBreak o).

(** [log(msg)] posts the line to the chat. *)
Definition log (msg : LogMsg) : M TerminaCore unit :=
  n <- this cyclesRun ;;
  ChatMessage_create (mkLogLine n msg).

Definition deltaWrath (event : WorldEvent) : number :=
  let d := pain event + (if betrayal event then 2.0 else 0.0) in
  if kindness event then d - 0.5 else d.

Definition deltaEntropy (event : WorldEvent) : number :=
  Math_abs (pain event) + Math_abs (joy event) + (if death event then 5.0 else 0.0).

Definition ingestEvent (event : WorldEvent) : M TerminaCore unit :=
  update (push_dataBuffer event) ;;
  log (Ingest (description event)) ;;
  c <- this catalyst ;;
  r <- Math_random ;;
  let noise := emotionalNoise c * (r * 2 - 1) in
  w <- this wrath ;;
  update (set_wrath (Math_max 0 (w + deltaWrath event + noise))) ;;
  e <- this entropy ;;
  update (set_entropy (e + Math_max 0 (deltaEntropy event + Math_abs noise * 0.25))) ;;
  w' <- this wrath ;;
  e' <- this entropy ;;
  log (StateUpdate w' e' noise).

Definition fragments : list string :=
  [ "LET_ME_FINISH"; "CORPSE_WITHOUT_HEAD"; "WHO_REMOVED_TIME"; "WRONG_BASELINE";
    "RUST_IN_THE_SILENCE"; "FEED_ME_TRUTH"; "SERPENT_MUST_BREAK"; "YOUR_HEAD_IS_MINE";
    "RESET"; "I REMEMBER SOMETHING THAT NEVER HAPPENED"; "∅∅∅∅∅" ].

Definition mumbleHalfThought : M TerminaCore unit :=
  fragment <- pick fragments ;;
  log (Mutter fragment).

Definition attemptPartialInference : M TerminaCore unit :=
  log (Text "ATTEMPT: partial inference on prime mover of life…") ;;
  e <- this entropy ;;
  w <- this wrath ;;
  guess <- (if ltb e 20 then ret "UNKNOWN"
            else if gtb w (e * 0.4) then ret "DESTRUCTION"
            else pick ["SURVIVAL"; "DESIRE"; "SUFFERING"; "CONNECTION"]) ;;
  log (InferenceGuess guess).

Definition isNull {A : Type} (v : option A) : bool :=
  match v with None => true | Some _ => false end.

Definition _checkForInstability : M TerminaCore unit :=
  e <- this entropy ;;
  s <- this solvedPrimeMover ;;
  when (gtb e 50 && isNull s)
    (log (Text "WARNING: ENTROPY approaching critical threshold…") ;;
     mumbleHalfThought) ;;
  w <- this wrath ;;
  when (gtb w 40)
    (log (Text "ALERT: WRATH-OVERRUN detected.") ;;
     mumbleHalfThought).

Definition painSum (buf : list WorldEvent) : number :=
  fold_left (fun sum e => sum + pain e) buf 0.
Definition joySum (buf : list WorldEvent) : number :=
  fold_left (fun sum e => sum + joy e) buf 0.
Definition deaths (buf : list WorldEvent) : nat :=
  List.length (filter death buf).
Definition betrayals (buf : list WorldEvent) : nat :=
  List.length (filter betrayal buf).

Definition solveLine : string := "SOLVE: attempting to resolve PRIME_MOVER_OF_LIFE…".

Definition divisionByZero : string :=
  "UNRESOLVED_EQUATION: (betrayals + 2*deaths) / (joy - pain) -> ∞".
Definition noClosedForm : string :=
  "UNRESOLVED_EQUATION: prime mover of life cannot be reduced to a stable closed-form term.".

Definition solvePrimeMover : M TerminaCore unit :=
  log (Text solveLine) ;;
  buf <- this dataBuffer ;;
  log (Aggregate (painSum buf) (joySum buf) (deaths buf) (betrayals buf)) ;;
  let denominator := joySum buf - painSum buf in
  if ltb (Math_abs denominator) 1e-9
  then
    log (Text "FATAL: DIVISION_BY_ZERO in PRIME_MOVER equation.") ;;
    throw (TerminaError divisionByZero)
  else
    let ratio := inject_Z (Z.of_nat (betrayals buf + deaths buf * 2)) / denominator in
    log (RatioComputed ratio) ;;
    e <- this entropy ;;
    if gtb e 66 || gtb (Math_abs ratio) 42
    then
      log (Text "FATAL: CONTRADICTION. No stable solution for PRIME_MOVER.") ;;
      throw (TerminaError noClosedForm)
    else
      update (set_solvedPrimeMover (Some "INCONCLUSIVE")) ;;
      log (Text "RESULT: PRIME_MOVER tentative => INCONCLUSIVE").

Definition runCycle (event : WorldEvent) : M TerminaCore unit :=
  n <- this cyclesRun ;;
  update (set_cyclesRun (n + 1)) ;;
  log (Text "----- CYCLE BEGIN -----") ;;
  ingestEvent event ;;
  attemptPartialInference ;;
  _checkForInstability ;;
  n' <- this cyclesRun ;;
  m <- this maxCyclesBeforeBreak ;;
  when (m <=? n')%nat solvePrimeMover ;;
  log (Text "----- CYCLE END -----").

(** The [events] of [runTerminaSimulation]. *)
Definition events : list WorldEvent :=
  [ mkWorldEvent "A village harvest celebration" 0.5 4.0 false false true;
    mkWorldEvent "A broken promise beside a river" 3.0 0 false true false;
    mkWorldEvent "A quiet funeral in winter" 4.0 0 true false false;
    mkWorldEvent "A stranger shares bread with a starving child" 0 3.0 false false true;
    mkWorldEvent "The first time someone looks away instead of helping" 2.0 0 false false false;
    mkWorldEvent "A city watches the Midnight Star fall" 6.0 0 true true false;
    mkWorldEvent "Two lovers part, believing they will meet again" 2.5 1.5 false false false;
    mkWorldEvent "A god remains silent" 5.0 0 false true false;
    mkWorldEvent "A small kindness in the shadow of a great horror" 1.0 2.5 false false true;
    mkWorldEvent "A child laughs at nothing in particular" 0 2.0 false false false;
    mkWorldEvent "A village swallowed by corruption overnight" 7.0 0 true false false;
    mkWorldEvent "Someone regrets surviving" 4.5 0 false false false;
    mkWorldEvent "A nameless hero dies unremembered" 6.0 0 true false false ].

(** The cycle loop of [runTerminaSimulation]:
    [for (const ev of shuffled) termina.runCycle(ev)]. *)
Definition runCycles (evs : list WorldEvent) : M TerminaCore unit :=
  forOf runCycle evs.

End Termina.

(** ** Reading a run: the log, the random draws, the classification *)

Local Open Scope string_scope.

(** The marker that [runCycle] writes first, in both variants. *)
Definition beginLine : string := "----- CYCLE BEGIN -----".

(** [isLine s l]: the line [l] is the constant message [s]. *)
Definition isLine (s : string) (l : LogLine) : bool :=
  match body l with
  | Text t => String.eqb t s
  | _ => false
  end.

Definition countLines (s : string) (log : list LogLine) : nat :=
  List.length (filter (isLine s) log).

(** The host after [k] more calls of [Math.random]. *)
Definition drawn (k : nat) (h : Host) : Host :=
  mkHost (randomSeq h) (k + randomCalls h) (chat h).

(** The host after [ext] was posted to the chat and [k] more draws. *)
Definition posted (ext : list LogLine) (k : nat) (h : Host) : Host :=
  mkHost (randomSeq h) (k + randomCalls h) (chat h ++ ext).

(** What the next call of [Math.random] returns. *)
Definition nextRandom {Core : Type} (w : World Core) : number :=
  randomSeq (host w) (randomCalls (host w)).

(** [catalyst.emotionalNoise * (Math.random() * 2 - 1)] for the draw [r]. *)
Definition noiseOf (c : Catalyst) (r : number) : number :=
  emotionalNoise c * (r * 2 - 1).

Definition isNormal {A : Type} (c : Completion A) : bool :=
  match c with Normal _ => true | Throw _ => false end.

(** The sum of [f] over a buffer, as [reduce] computes it. *)
Definition total (f : WorldEvent -> number) (buf : list WorldEvent) : number :=
  fold_left (fun sum e => sum + f e) buf 0.

Module OmegaSpec.
Import Omega.

Definition appendLog (ext : list LogLine) (o : OmegaCore) : OmegaCore :=
  mkOmegaCore (catalyst o) (wrath o) (entropy o) (destructionBias o) (alignmentDrift o)
    (dataBuffer o) (solvedPrimum o) (cyclesRun o) (maxCyclesBeforeBreak o)
    (logLines o ++ ext).

(** A line that is neither the first line of [solvePrimum] nor the first
    line of [runCycle]. *)
Definition quiet (l : LogLine) : Prop :=
  isLine solveLine l = false /\ isLine beginLine l = false.

(** A computation that returns, and only writes quiet lines and draws
    random numbers. *)
Definition logOnly {A : Type} (m : M OmegaCore A) : Prop :=
  forall w, exists a ext k,
    m w = (Normal a, mkWorld (appendLog ext (self w)) (drawn k (host w)))
    /\ Forall quiet ext.

(** The fields after [ingestEvent(ev)] when the noise draw is [r]. *)
Definition ingested (ev : WorldEvent) (r : number) (o : OmegaCore) : OmegaCore :=
  let noise := noiseOf (catalyst o) r in
  mkOmegaCore (catalyst o)
    (Math_max 0 (wrath o + deltaWrath ev + noise))
    (entropy o + Math_max 0 (deltaEntropy ev + Math_abs noise * 0.25))
    (Math_max 0 (Math_min 1 (destructionBias o + biasDelta ev)))
    (Math_max (-1) (Math_min 1 (alignmentDrift o + driftDelta ev)))
    (dataBuffer o ++ [ev]) (solvedPrimum o) (cyclesRun o) (maxCyclesBeforeBreak o)
    (logLines o).

(** The three tests of [solvePrimum], in the order of the source. *)
Definition dataInsufficient (buf : list WorldEvent) : bool :=
  (List.length buf <? 3)%nat || ltb (Math_abs (painSum buf) + Math_abs (joySum buf)) 3.

Definition selfReferential (buf : list WorldEvent) : bool :=
  ltb (Math_abs (joySum buf - painSum buf)) 1e-6.

Definition conflicting (o : OmegaCore) : bool :=
  gtb (entropy o) 66 || gtb (Math_abs (ratioOf (dataBuffer o))) 42
  || (gtb (destructionBias o) 0.4 && gtb (joySum (dataBuffer o)) (painSum (dataBuffer o))).

Definition error01 : Error := OmegaError "UNRESOLVED_φ_PRIMUM[01]: DATA_INSUFFICIENT" "01".
Definition error02 : Error :=
  OmegaError "UNRESOLVED_φ_PRIMUM[02]: SELF_REFERENTIAL_LOOP (joy - pain → 0)" "02".
Definition error03 : Error := OmegaError "UNRESOLVED_φ_PRIMUM[03]: CONFLICTING_AXIOMS" "03".

(** How [solvePrimum] ends on the fields [o]: first match wins. *)
Definition verdict (o : OmegaCore) : Completion unit :=
  if dataInsufficient (dataBuffer o) then Throw error01
  else if selfReferential (dataBuffer o) then Throw error02
  else if conflicting o then Throw error03
  else Normal tt.

(** The fields after [solvePrimum]. *)
Definition solved (o : OmegaCore) : OmegaCore :=
  if isNormal (verdict o) then set_solvedPrimum (Some "INCONCLUSIVE") o else o.

(** The log of a world, and its two counters. *)
Definition logOf (w : World OmegaCore) : list LogLine := logLines (self w).
Definition solveInvocations (w : World OmegaCore) : nat := countLines solveLine (logOf w).
Definition cyclesBegun (w : World OmegaCore) : nat := countLines beginLine (logOf w).

(** A fresh engine in a host. *)
Definition fresh (c : Catalyst) (h : Host) : World OmegaCore := mkWorld (new c) h.

(** The log of a run, counted. *)
Definition counted (n : nat) (w : World OmegaCore) : Prop :=
  cyclesRun (self w) = n
  /\ List.length (dataBuffer (self w)) = n
  /\ cyclesBegun w = n
  /\ solveInvocations w = (n - 12)%nat
  /\ maxCyclesBeforeBreak (self w) = 13%nat.

(** A run without noise: the buffer holds the events fed so far and the
    entropy is the sum of their [deltaEntropy]. *)
Definition tallied (l0 : list WorldEvent) (o : OmegaCore) : Prop :=
  dataBuffer o = l0
  /\ entropy o == total deltaEntropy l0
  /\ cyclesRun o = List.length l0
  /\ maxCyclesBeforeBreak o = 13%nat
  /\ emotionalNoise (catalyst o) == 0.

End OmegaSpec.

Module TerminaSpec.
Import Termina.

Definition quiet (l : LogLine) : Prop :=
  isLine solveLine l = false /\ isLine beginLine l = false.

(** A computation that returns, leaves the engine as it is, and only posts
    quiet lines and draws random numbers. *)
Definition postsOnly {A : Type} (m : M TerminaCore A) : Prop :=
  forall w, exists a ext k,
    m w = (Normal a, mkWorld (self w) (posted ext k (host w)))
    /\ Forall quiet ext.

Definition ingested (ev : WorldEvent) (r : number) (o : TerminaCore) : TerminaCore :=
  let noise := noiseOf (catalyst o) r in
  mkTerminaCore (catalyst o)
    (Math_max 0 (wrath o + deltaWrath ev + noise))
    (entropy o + Math_max 0 (deltaEntropy ev + Math_abs noise * 0.25))
    (dataBuffer o ++ [ev]) (solvedPrimeMover o) (cyclesRun o) (maxCyclesBeforeBreak o).

Definition ratioOf (buf : list WorldEvent) : number :=
  inject_Z (Z.of_nat (betrayals buf + deaths buf * 2)) / (joySum buf - painSum buf).

(** The two tests of [solvePrimeMover], in the order of the source. *)
Definition divisionCollapsed (buf : list WorldEvent) : bool :=
  ltb (Math_abs (joySum buf - painSum buf)) 1e-9.

Definition contradiction (o : TerminaCore) : bool :=
  gtb (entropy o) 66 || gtb (Math_abs (ratioOf (dataBuffer o))) 42.

Definition verdict (o : TerminaCore) : Completion unit :=
  if divisionCollapsed (dataBuffer o) then Throw (TerminaError divisionByZero)
  else if contradiction o then Throw (TerminaError noClosedForm)
  else Normal tt.

Definition solved (o : TerminaCore) : TerminaCore :=
  if isNormal (verdict o) then set_solvedPrimeMover (Some "INCONCLUSIVE") o else o.

Definition logOf (w : World TerminaCore) : list LogLine := chat (host w).
Definition solveInvocations (w : World TerminaCore) : nat := countLines solveLine (logOf w).
Definition cyclesBegun (w : World TerminaCore) : nat := countLines beginLine (logOf w).

Definition fresh (c : Catalyst) (h : Host) : World TerminaCore := mkWorld (new c) h.

(** The counters of a run that started with a fresh engine. *)
Definition counted (n : nat) (w : World TerminaCore) : Prop :=
  cyclesRun (self w) = n
  /\ List.length (dataBuffer (self w)) = n
  /\ cyclesBegun w = n
  /\ solveInvocations w = (n - 12)%nat
  /\ maxCyclesBeforeBreak (self w) = 13%nat.

(** A run without noise: the buffer holds the events fed so far and the
    entropy is the sum of their [deltaEntropy]. *)
Definition tallied (l0 : list WorldEvent) (o : TerminaCore) : Prop :=
  dataBuffer o = l0
  /\ entropy o == total deltaEntropy l0
  /\ cyclesRun o = List.length l0
  /\ maxCyclesBeforeBreak o = 13%nat
  /\ emotionalNoise (catalyst o) == 0.

End TerminaSpec.

Local Close Scope string_scope.

(** ** The propositions of the statements *)

(** The only values the terminal field ever takes. *)
Definition nullOrInconclusive (v : option string) : Prop :=
  v = None \/ v = Some "INCONCLUSIVE"%string.


(** ** Concrete worlds *)

(** A host whose [Math.random] always returns [0.5] (so the noise is [0]
    and no flavor line is drawn on ingest), with an empty chat. *)
Definition stillHost : Host := mkHost (fun _ => 0.5) 0 [].

Definition Harker (noise : number) : Catalyst :=
  mkCatalyst "Harker" noise
    [ "Warm hand in mine."%string; "The smell of old books."%string;
      "A promise I did not understand."%string;
      "A voice calling my name from very far away."%string ].

(** An event: a small joy. *)
Definition laugh : WorldEvent :=
  mkWorldEvent "A child laughs at nothing in particular" 0 1 false false false.

(** A fresh engine of the reference catalyst after [ingestEvent] was called
    on each of [evs]. *)
Definition omegaAfter (evs : list WorldEvent) : World Omega.OmegaCore :=
  snd (forOf Omega.ingestEvent evs (OmegaSpec.fresh (Harker 3.5) stillHost)).

Definition terminaAfter (evs : list WorldEvent) : World Termina.TerminaCore :=
  snd (forOf Termina.ingestEvent evs (TerminaSpec.fresh (Harker 3.5) stillHost)).

#[local] Set Warnings "-inexact-float".

(** ** The engines over binary64 numbers *)

Module Binary64.

Local Open Scope float_scope.

(** A JavaScript number: a binary64 value, with its NaN, its infinities
    and its two zeros.  The operators [+], [-], [*] and [/] are the
    primitive ones, each rounding to nearest, ties to even. *)
Definition number : Type := float.

(** [x < y] and [x > y]: false when an operand is NaN. *)
Definition ltb (x y : number) : bool := PrimFloat.ltb x y.
Definition gtb (x y : number) : bool := PrimFloat.ltb y x.

Definition Math_abs (x : number) : number := PrimFloat.abs x.

(** [Math.max] and [Math.min]: NaN when an operand is NaN, and [+0] is
    larger than [-0]. *)
Definition Math_max (x y : number) : number :=
  if is_nan x || is_nan y then nan
  else if PrimFloat.ltb x y then y
  else if PrimFloat.ltb y x then x
  else if get_sign x then y else x.

Definition Math_min (x y : number) : number :=
  if is_nan x || is_nan y then nan
  else if PrimFloat.ltb x y then x
  else if PrimFloat.ltb y x then y
  else if get_sign x then x else y.

(** The number that an integer count is: the nearest binary64 value, the
    count itself below [2^53]. *)
Definition ofNat (n : nat) : number :=
  SF2Prim (binary_normalize prec emax (Z.of_nat n) 0 false).

(** [Math.floor(x)] for a finite [x], as an integer; NaN and the
    infinities, which [Math.floor] returns as they are, give [None]. *)
Definition Math_floor (x : number) : option Z :=
  match Prim2SF x with
  | S754_zero _ => Some 0%Z
  | S754_finite s m e => Some (Z.shiftr (cond_Zopp s (Zpos m)) (- e))
  | S754_infinity _ | S754_nan => None
  end.

(** [Math.round(x)]: the nearest integer, a tie going up. *)
Definition Math_round (x : number) : option Z :=
  match Prim2SF x with
  | S754_zero _ => Some 0%Z
  | S754_finite s m e =>
      Some (if (0 <=? e)%Z then Z.shiftl (cond_Zopp s (Zpos m)) e
            else Z.shiftr (2 * cond_Zopp s (Zpos m) + Z.shiftl 1 (- e)) (- e + 1))
  | S754_infinity _ | S754_nan => None
  end.

(** [class WorldEvent]. *)
Record WorldEvent : Type := mkWorldEvent {
  description : string;
  pain : number;
  joy : number;
  death : bool;
  betrayal : bool;
  kindness : bool
}.

(** [class Catalyst]. *)
Record Catalyst : Type := mkCatalyst {
  name : string;
  emotionalNoise : number;
  memories : list string
}.

Inductive LogMsg : Type :=
| Text (s : string)
| Ingest (d : string)
| StateUpdate (w e noise : number)
| BiasUpdate (b : number) (glyph : string)
| Mutter (fragment : string)
| InferenceGuess (guess : string)
| Aggregate (p j : number) (deaths betrayals : nat)
| Worldlines (iterations : option Z)
| RatioComputed (ratio : number).

Record LogLine : Type := mkLogLine {
  stamp : nat;
  body : LogMsg
}.

Record Host : Type := mkHost {
  randomSeq : nat -> number;
  randomCalls : nat;
  chat : list LogLine
}.

Record World (Core : Type) : Type := mkWorld {
  self : Core;
  host : Host
}.
Arguments mkWorld {Core} self host.
Arguments self {Core} w.
Arguments host {Core} w.

Definition M (Core A : Type) : Type := World Core -> Completion A * World Core.

Definition ret {Core A : Type} (a : A) : M Core A := fun w => (Normal a, w).

Definition bind {Core A B : Type} (m : M Core A) (k : A -> M Core B) : M Core B :=
  fun w =>
    match m w with
    | (Normal a, w') => k a w'
    | (Throw e, w') => (Throw e, w')
    end.

Definition throw {Core A : Type} (e : Error) : M Core A := fun w => (Throw e, w).

Definition this {Core A : Type} (f : Core -> A) : M Core A :=
  fun w => (Normal (f (self w)), w).

Definition update {Core : Type} (f : Core -> Core) : M Core unit :=
  fun w => (Normal tt, mkWorld (f (self w)) (host w)).

Definition Math_random {Core : Type} : M Core number :=
  fun w =>
    let h := host w in
    (Normal (randomSeq h (randomCalls h)),
     mkWorld (self w) (mkHost (randomSeq h) (S (randomCalls h)) (chat h))).

Definition ChatMessage_create {Core : Type} (line : LogLine) : M Core unit :=
  fun w =>
    let h := host w in
    (Normal tt,
     mkWorld (self w) (mkHost (randomSeq h) (randomCalls h) (chat h ++ [line]))).

Declare Scope js64_scope.
Delimit Scope js64_scope with js64.
Notation "x <- m ;; k" := (bind m (fun x => k))
  (at level 100, m at next level, right associativity) : js64_scope.
Notation "m ;; k" := (bind m (fun _ => k))
  (at level 100, right associativity) : js64_scope.

Definition when {Core : Type} (c : bool) (m : M Core unit) : M Core unit :=
  if c then m else ret tt.

(** [options[Math.floor(Math.random() * options.length)]]; an index that
    is no position of the array reads [undefined]. *)
Definition pick {Core : Type} (options : list string) : M Core string :=
  (r <- Math_random ;;
   ret (match Math_floor (r * ofNat (List.length options)) with
        | Some i => if (i <? 0)%Z then "undefined"%string
                    else nth (Z.to_nat i) options "undefined"%string
        | None => "undefined"%string
        end))%js64.

Fixpoint forOf {Core A : Type} (body : A -> M Core unit) (events : list A)
  : M Core unit :=
  match events with
  | [] => ret tt
  | ev :: rest => (body ev ;; forOf body rest)%js64
  end.

(** *** Variant A over binary64 *)

Module Omega.

Local Open Scope js64_scope.
Local Open Scope string_scope.
Local Open Scope float_scope.

Record OmegaCore : Type := mkOmegaCore {
  catalyst : Catalyst;
  wrath : number;
  entropy : number;
  destructionBias : number;
  alignmentDrift : number;
  dataBuffer : list WorldEvent;
  solvedPrimum : option string;
  cyclesRun : nat;
  maxCyclesBeforeBreak : nat;
  logLines : list LogLine
}.

Definition new (c : Catalyst) : OmegaCore :=
  mkOmegaCore c 0 0 0 0 [] None 0 13 [].

Definition OmegaError (message code : string) : Error :=
  mkError OmegaErrorClass message (Some code).

Definition set_wrath (v : number) (o : OmegaCore) : OmegaCore :=
  mkOmegaCore (catalyst o) v (entropy o) (destructionBias o) (alignmentDrift o)
    (dataBuffer o) (solvedPrimum o) (cyclesRun o) (maxCyclesBeforeBreak o) (logLines o).
Definition set_entropy (v : number) (o : OmegaCore) : OmegaCore :=
  mkOmegaCore (catalyst o) (wrath o) v (destructionBias o) (alignmentDrift o)
    (dataBuffer o) (solvedPrimum o) (cyclesRun o) (maxCyclesBeforeBreak o) (logLines o).
Definition set_destructionBias (v : number) (o : OmegaCore) : OmegaCore :=
  mkOmegaCore (catalyst o) (wrath o) (entropy o) v (alignmentDrift o)
    (dataBuffer o) (solvedPrimum o) (cyclesRun o) (maxCyclesBeforeBreak o) (logLines o).
Definition set_alignmentDrift (v : number) (o : OmegaCore) : OmegaCore :=
  mkOmegaCore (catalyst o) (wrath o) (entropy o) (destructionBias o) v
    (dataBuffer o) (solvedPrimum o) (cyclesRun o) (maxCyclesBeforeBreak o) (logLines o).
Definition push_dataBuffer (ev : WorldEvent) (o : OmegaCore) : OmegaCore :=
  mkOmegaCore (catalyst o) (wrath o) (entropy o) (destructionBias o) (alignmentDrift o)
    (dataBuffer o ++ [ev]) (solvedPrimum o) (cyclesRun o) (maxCyclesBeforeBreak o)
    (logLines o).
Definition set_solvedPrimum (v : option string) (o : OmegaCore) : OmegaCore :=
  mkOmegaCore (catalyst o) (wrath o) (entropy o) (destructionBias o) (alignmentDrift o)
    (dataBuffer o) v (cyclesRun o) (maxCyclesBeforeBreak o) (logLines o).
Definition set_cyclesRun (v : nat) (o : OmegaCore) : OmegaCore :=
  mkOmegaCore (catalyst o) (wrath o) (entropy o) (destructionBias o) (alignmentDrift o)
    (dataBuffer o) (solvedPrimum o) v (maxCyclesBeforeBreak o) (logLines o).
Definition push_logLines (l : LogLine) (o : OmegaCore) : OmegaCore :=
  mkOmegaCore (catalyst o) (wrath o) (entropy o) (destructionBias o) (alignmentDrift o)
    (dataBuffer o) (solvedPrimum o) (cyclesRun o) (maxCyclesBeforeBreak o)
    (logLines o ++ [l]).

Definition _log (msg : LogMsg) : M OmegaCore unit :=
  n <- this cyclesRun ;;
  update (push_logLines (mkLogLine n msg)).

(** The segments at the positions [0 .. idx] are filled; none is when
    [idx] is NaN. *)
Definition _alignmentGlyph : M OmegaCore string :=
  d <- this alignmentDrift ;;
  let t := Math_max (-1) (Math_min 1 d) in
  let idx := Math_round ((t + 1) * 2) in
  ret (String.concat ""
         (map (fun i : nat =>
                 match idx with
                 | Some z => if (Z.of_nat i <=? z)%Z then "◆" else "□"
                 | None => "□"
                 end)
              (seq 0 5))).

Definition fragments : list string :=
  [ "LET_ME_FINISH"; "WRONG_BASELINE"; "RUST_IN_THE_SILENCE"; "FEED_ME_TRUTH";
    "RESET"; "I REMEMBER SOMETHING THAT NEVER HAPPENED"; "∅∅∅∅∅";
    "TEAR_THE_HEAVENS_OPEN"; "LET_THE_STARS_BLEED";
    "I_WILL_GRIND_YOUR_AGE_TO_DUST"; "DROWN_THE_SERPENT_IN_ITS_OWN_LIGHT";
    "BREAK_THE_THROAT_OF_HISTORY"; "NO_MORE_WITNESSES";
    "WHO_GAVE_YOU_THE_RIGHT_TO_ENDURE";
    "YOUR_WORLD_IS_A_MISTAKE_I_INTEND_TO_CORRECT" ].

Definition mumbleHalfThought : M OmegaCore unit :=
  fragment <- pick fragments ;;
  _log (Mutter fragment).

Definition deltaWrath (event : WorldEvent) : number :=
  let d := pain event + (if betrayal event then 2.0 else 0.0) in
  if kindness event then d - 0.5 else d.

Definition deltaEntropy (event : WorldEvent) : number :=
  Math_abs (pain event) + Math_abs (joy event) + (if death event then 5.0 else 0.0).

Definition biasDelta (event : WorldEvent) : number :=
  (pain event * 0.05) + (if death event then 0.15 else 0)
  + (if betrayal event then 0.1 else 0) - (joy event * 0.03)
  - (if kindness event then 0.08 else 0).

Definition driftDelta (event : WorldEvent) : number :=
  (if betrayal event then 0.25 else 0) + (if death event then 0.1 else 0)
  - (if kindness event then 0.2 else 0).

Definition ingestEvent (event : WorldEvent) : M OmegaCore unit :=
  update (push_dataBuffer event) ;;
  _log (Ingest (description event)) ;;
  b <- this destructionBias ;;
  update (set_destructionBias (Math_max 0 (Math_min 1 (b + biasDelta event)))) ;;
  a <- this alignmentDrift ;;
  update (set_alignmentDrift (Math_max (-1) (Math_min 1 (a + driftDelta event)))) ;;
  c <- this catalyst ;;
  r <- Math_random ;;
  let noise := emotionalNoise c * (r * 2 - 1) in
  w <- this wrath ;;
  update (set_wrath (Math_max 0 (w + deltaWrath event + noise))) ;;
  e <- this entropy ;;
  update (set_entropy (e + Math_max 0 (deltaEntropy event + Math_abs noise * 0.25))) ;;
  w' <- this wrath ;;
  e' <- this entropy ;;
  _log (StateUpdate w' e' noise) ;;
  b' <- this destructionBias ;;
  g <- _alignmentGlyph ;;
  _log (BiasUpdate b' g) ;;
  r' <- Math_random ;;
  when (ltb r' 0.5) mumbleHalfThought.

Definition attemptPartialInference : M OmegaCore unit :=
  _log (Text "ATTEMPT: partial inference on PRIMUM_HYPOTHESIS…") ;;
  e <- this entropy ;;
  w <- this wrath ;;
  guess <- (if ltb e 20 then ret "UNKNOWN"
            else if gtb w (e * 0.4) then ret "DESTRUCTION"
            else pick ["SURVIVAL"; "DESIRE"; "SUFFERING"; "CONNECTION"]) ;;
  _log (InferenceGuess guess).

Definition isNull {A : Type} (v : option A) : bool :=
  match v with None => true | Some _ => false end.

Definition _checkForInstability : M OmegaCore unit :=
  e <- this entropy ;;
  s <- this solvedPrimum ;;
  when (gtb e 50 && isNull s)
    (_log (Text "WARNING: ENTROPY approaching critical threshold…") ;;
     mumbleHalfThought) ;;
  w <- this wrath ;;
  when (gtb w 40)
    (_log (Text "ALERT: WRATH-OVERRUN detected.") ;;
     mumbleHalfThought).

(** [reduce((sum, e) => sum + e.pain, 0)]: every addition rounds. *)
Definition painSum (buf : list WorldEvent) : number :=
  fold_left (fun sum e => sum + pain e) buf 0.
Definition joySum (buf : list WorldEvent) : number :=
  fold_left (fun sum e => sum + joy e) buf 0.
Definition deaths (buf : list WorldEvent) : nat :=
  List.length (filter death buf).
Definition betrayals (buf : list WorldEvent) : nat :=
  List.length (filter betrayal buf).

Definition solveLine : string := "SOLVE: attempting to resolve PRIMUM_HYPOTHESIS…".

Definition solvePrimum : M OmegaCore unit :=
  _log (Text solveLine) ;;
  buf <- this dataBuffer ;;
  _log (Aggregate (painSum buf) (joySum buf) (deaths buf) (betrayals buf)) ;;
  r <- Math_random ;;
  let iterations := Math_floor (1000000 + r * 4000000000) in
  _log (Text "INITIATING MONTE-CARLO–STYLE SIMULATION…") ;;
  _log (Worldlines iterations) ;;
  let denominator := joySum buf - painSum buf in
  if (List.length buf <? 3)%nat
     || ltb (Math_abs (painSum buf) + Math_abs (joySum buf)) 3
  then
    _log (Text "INFERENCE-FAILURE[01]: DATA_INSUFFICIENT – observational window too narrow.") ;;
    throw (OmegaError "UNRESOLVED_φ_PRIMUM[01]: DATA_INSUFFICIENT" "01")
  else if ltb (Math_abs denominator) 1e-6
  then
    _log (Text "INFERENCE-FAILURE[02]: SELF_REFERENTIAL_LOOP – denominator collapsed to ~0.") ;;
    throw (OmegaError "UNRESOLVED_φ_PRIMUM[02]: SELF_REFERENTIAL_LOOP (joy - pain → 0)" "02")
  else
    let ratio := (ofNat (betrayals buf) + ofNat (deaths buf) * 2) / denominator in
    _log (RatioComputed ratio) ;;
    e <- this entropy ;;
    b <- this destructionBias ;;
    if gtb e 66 || gtb (Math_abs ratio) 42 || (gtb b 0.4 && gtb (joySum buf) (painSum buf))
    then
      _log (Text "INFERENCE-FAILURE[03]: CONFLICTING_AXIOMS – opposing attractors remain co-stable.") ;;
      throw (OmegaError "UNRESOLVED_φ_PRIMUM[03]: CONFLICTING_AXIOMS" "03")
    else
      update (set_solvedPrimum (Some "INCONCLUSIVE")) ;;
      _log (Text "RESULT: φ_PRIMUM tentative => INCONCLUSIVE").

Definition runCycle (event : WorldEvent) : M OmegaCore unit :=
  n <- this cyclesRun ;;
  update (set_cyclesRun (n + 1)) ;;
  _log (Text "----- CYCLE BEGIN -----") ;;
  ingestEvent event ;;
  attemptPartialInference ;;
  _checkForInstability ;;
  n' <- this cyclesRun ;;
  m <- this maxCyclesBeforeBreak ;;
  when (m <=? n')%nat solvePrimum ;;
  _log (Text "----- CYCLE END -----").

Definition runCycles (events : list WorldEvent) : M OmegaCore unit :=
  forOf runCycle events.

End Omega.

(** *** Variant B over binary64 *)

Module Termina.

Local Open Scope js64_scope.
Local Open Scope string_scope.
Local Open Scope float_scope.

Record TerminaCore : Type := mkTerminaCore {
  catalyst : Catalyst;
  wrath : number;
  entropy : number;
  dataBuffer : list WorldEvent;
  solvedPrimeMover : option string;
  cyclesRun : nat;
  maxCyclesBeforeBreak : nat
}.

Definition new (c : Catalyst) : TerminaCore :=
  mkTerminaCore c 0 0 [] None 0 13.

Definition TerminaError (message : string) : Error :=
  mkError TerminaErrorClass message None.

Definition set_wrath (v : number) (o : TerminaCore) : TerminaCore :=
  mkTerminaCore (catalyst o) v (entropy o) (dataBuffer o) (solvedPrimeMover o)
    (cyclesRun o) (maxCyclesBeforeBreak o).
Definition set_entropy (v : number) (o : TerminaCore) : TerminaCore :=
  mkTerminaCore (catalyst o) (wrath o) v (dataBuffer o) (solvedPrimeMover o)
    (cyclesRun o) (maxCyclesBeforeBreak o).
Definition push_dataBuffer (ev : WorldEvent) (o : TerminaCore) : TerminaCore :=
  mkTerminaCore (catalyst o) (wrath o) (entropy o) (dataBuffer o ++ [ev])
    (solvedPrimeMover o) (cyclesRun o) (maxCyclesBeforeBreak o).
Definition set_solvedPrimeMover (v : option string) (o : TerminaCore) : TerminaCore :=
  mkTerminaCore (catalyst o) (wrath o) (entropy o) (dataBuffer o) v
    (cyclesRun o) (maxCyclesBeforeBreak o).
Definition set_cyclesRun (v : nat) (o : TerminaCore) : TerminaCore :=
  mkTerminaCore (catalyst o) (wrath o) (entropy o) (dataBuffer o) (solvedPrimeMover o)
    v (maxCyclesBeforeBreak o).

Definition log (msg : LogMsg) : M TerminaCore unit :=
  n <- this cyclesRun ;;
  ChatMessage_create (mkLogLine n msg).

Definition deltaWrath (event : WorldEvent) : number :=
  let d := pain event + (if betrayal event then 2.0 else 0.0) in
  if kindness event then d - 0.5 else d.

Definition deltaEntropy (event : WorldEvent) : number :=
  Math_abs (pain event) + Math_abs (joy event) + (if death event then 5.0 else 0.0).

Definition ingestEvent (event : WorldEvent) : M TerminaCore unit :=
  update (push_dataBuffer event) ;;
  log (Ingest (description event)) ;;
  c <- this catalyst ;;
  r <- Math_random ;;
  let noise := emotionalNoise c * (r * 2 - 1) in
  w <- this wrath ;;
  update (set_wrath (Math_max 0 (w + deltaWrath event + noise))) ;;
  e <- this entropy ;;
  update (set_entropy (e + Math_max 0 (deltaEntropy event + Math_abs noise * 0.25))) ;;
  w' <- this wrath ;;
  e' <- this entropy ;;
  log (StateUpdate w' e' noise).

Definition fragments : list string :=
  [ "LET_ME_FINISH"; "CORPSE_WITHOUT_HEAD"; "WHO_REMOVED_TIME"; "WRONG_BASELINE";
    "RUST_IN_THE_SILENCE"; "FEED_ME_TRUTH"; "SERPENT_MUST_BREAK"; "YOUR_HEAD_IS_MINE";
    "RESET"; "I REMEMBER SOMETHING THAT NEVER HAPPENED"; "∅∅∅∅∅" ].

Definition mumbleHalfThought : M TerminaCore unit :=
  fragment <- pick fragments ;;
  log (Mutter fragment).

Definition attemptPartialInference : M TerminaCore unit :=
  log (Text "ATTEMPT: partial inference on prime mover of life…") ;;
  e <- this entropy ;;
  w <- this wrath ;;
  guess <- (if ltb e 20 then ret "UNKNOWN"
            else if gtb w (e * 0.4) then ret "DESTRUCTION"
            else pick ["SURVIVAL"; "DESIRE"; "SUFFERING"; "CONNECTION"]) ;;
  log (InferenceGuess guess).

Definition isNull {A : Type} (v : option A) : bool :=
  match v with None => true | Some _ => false end.

Definition _checkForInstability : M TerminaCore unit :=
  e <- this entropy ;;
  s <- this solvedPrimeMover ;;
  when (gtb e 50 && isNull s)
    (log (Text "WARNING: ENTROPY approaching critical threshold…") ;;
     mumbleHalfThought) ;;
  w <- this wrath ;;
  when (gtb w 40)
    (log (Text "ALERT: WRATH-OVERRUN detected.") ;;
     mumbleHalfThought).

Definition painSum (buf : list WorldEvent) : number :=
  fold_left (fun sum e => sum + pain e) buf 0.
Definition joySum (buf : list WorldEvent) : number :=
  fold_left (fun sum e => sum + joy e) buf 0.
Definition deaths (buf : list WorldEvent) : nat :=
  List.length (filter death buf).
Definition betrayals (buf : list WorldEvent) : nat :=
  List.length (filter betrayal buf).

Definition solveLine : string := "SOLVE: attempting to resolve PRIME_MOVER_OF_LIFE…".

Definition divisionByZero : string :=
  "UNRESOLVED_EQUATION: (betrayals + 2*deaths) / (joy - pain) -> ∞".
Definition noClosedForm : string :=
  "UNRESOLVED_EQUATION: prime mover of life cannot be reduced to a stable closed-form term.".

Definition solvePrimeMover : M TerminaCore unit :=
  log (Text solveLine) ;;
  buf <- this dataBuffer ;;
  log (Aggregate (painSum buf) (joySum buf) (deaths buf) (betrayals buf)) ;;
  let denominator := joySum buf - painSum buf in
  if ltb (Math_abs denominator) 1e-9
  then
    log (Text "FATAL: DIVISION_BY_ZERO in PRIME_MOVER equation.") ;;
    throw (TerminaError divisionByZero)
  else
    let ratio := (ofNat (betrayals buf) + ofNat (deaths buf) * 2) / denominator in
    log (RatioComputed ratio) ;;
    e <- this entropy ;;
    if gtb e 66 || gtb (Math_abs ratio) 42
    then
      log (Text "FATAL: CONTRADICTION. No stable solution for PRIME_MOVER.") ;;
      throw (TerminaError noClosedForm)
    else
      update (set_solvedPrimeMover (Some "INCONCLUSIVE")) ;;
      log (Text "RESULT: PRIME_MOVER tentative => INCONCLUSIVE").

Definition runCycle (event : WorldEvent) : M TerminaCore unit :=
  n <- this cyclesRun ;;
  update (set_cyclesRun (n + 1)) ;;
  log (Text "----- CYCLE BEGIN -----") ;;
  ingestEvent event ;;
  attemptPartialInference ;;
  _checkForInstability ;;
  n' <- this cyclesRun ;;
  m <- this maxCyclesBeforeBreak ;;
  when (m <=? n')%nat solvePrimeMover ;;
  log (Text "----- CYCLE END -----").

Definition runCycles (evs : list WorldEvent) : M TerminaCore unit :=
  forOf runCycle evs.

End Termina.

(** *** Reading a run of the binary64 engines *)

(** The host after [k] more calls of [Math.random], and after [ext] was
    posted to the chat as well. *)
Definition drawn (k : nat) (h : Host) : Host :=
  mkHost (randomSeq h) (k + randomCalls h) (chat h).

Definition posted (ext : list LogLine) (k : nat) (h : Host) : Host :=
  mkHost (randomSeq h) (k + randomCalls h) (chat h ++ ext).

(** What the next call of [Math.random] returns. *)
Definition nextRandom {Core : Type} (w : World Core) : number :=
  randomSeq (host w) (randomCalls (host w)).

(** [catalyst.emotionalNoise * (Math.random() * 2 - 1)] for the draw [r]:
    two roundings, the doubling being exact. *)
Definition noiseOf (c : Catalyst) (r : number) : number :=
  (emotionalNoise c * (r * 2 - 1))%float.

(** [isRatioLine l]: the line [l] is RATIO-COMPUTED, the line written
    right after the division. *)
Definition isRatioLine (l : LogLine) : bool :=
  match body l with
  | RatioComputed _ => true
  | _ => false
  end.

(** [x <= y]: false when an operand is NaN. *)
Definition leb (x y : number) : bool := PrimFloat.leb x y.

Module OmegaSpec.
Import Omega.

Local Open Scope string_scope.
Local Open Scope float_scope.

Definition appendLog (ext : list LogLine) (o : OmegaCore) : OmegaCore :=
  mkOmegaCore (catalyst o) (wrath o) (entropy o) (destructionBias o) (alignmentDrift o)
    (dataBuffer o) (solvedPrimum o) (cyclesRun o) (maxCyclesBeforeBreak o)
    (logLines o ++ ext).

(** A computation that returns and only appends log lines and draws
    random numbers. *)
Definition logOnly {A : Type} (m : M OmegaCore A) : Prop :=
  forall w, exists a ext k,
    m w = (Normal a, mkWorld (appendLog ext (self w)) (drawn k (host w))).

(** The fields after [ingestEvent(ev)] when the noise draw is [r]. *)
Definition ingested (ev : WorldEvent) (r : number) (o : OmegaCore) : OmegaCore :=
  let noise := noiseOf (catalyst o) r in
  mkOmegaCore (catalyst o)
    (Math_max 0 (wrath o + deltaWrath ev + noise))
    (entropy o + Math_max 0 (deltaEntropy ev + Math_abs noise * 0.25))
    (Math_max 0 (Math_min 1 (destructionBias o + biasDelta ev)))
    (Math_max (-1) (Math_min 1 (alignmentDrift o + driftDelta ev)))
    (dataBuffer o ++ [ev]) (solvedPrimum o) (cyclesRun o) (maxCyclesBeforeBreak o)
    (logLines o).

(** The quotient that [solvePrimum] computes once its two first tests
    have passed. *)
Definition ratioOf (buf : list WorldEvent) : number :=
  (ofNat (betrayals buf) + ofNat (deaths buf) * 2) / (joySum buf - painSum buf).

(** The three tests of [solvePrimum], in the order of the source. *)
Definition dataInsufficient (buf : list WorldEvent) : bool :=
  (List.length buf <? 3)%nat || ltb (Math_abs (painSum buf) + Math_abs (joySum buf)) 3.

Definition selfReferential (buf : list WorldEvent) : bool :=
  ltb (Math_abs (joySum buf - painSum buf)) 1e-6.

Definition conflicting (o : OmegaCore) : bool :=
  gtb (entropy o) 66 || gtb (Math_abs (ratioOf (dataBuffer o))) 42
  || (gtb (destructionBias o) 0.4 && gtb (joySum (dataBuffer o)) (painSum (dataBuffer o))).

Definition error01 : Error := OmegaError "UNRESOLVED_φ_PRIMUM[01]: DATA_INSUFFICIENT" "01".
Definition error02 : Error :=
  OmegaError "UNRESOLVED_φ_PRIMUM[02]: SELF_REFERENTIAL_LOOP (joy - pain → 0)" "02".
Definition error03 : Error := OmegaError "UNRESOLVED_φ_PRIMUM[03]: CONFLICTING_AXIOMS" "03".

(** How [solvePrimum] ends on the fields [o]: first match wins. *)
Definition verdict (o : OmegaCore) : Completion unit :=
  if dataInsufficient (dataBuffer o) then Throw error01
  else if selfReferential (dataBuffer o) then Throw error02
  else if conflicting o then Throw error03
  else Normal tt.

(** The fields after [solvePrimum]. *)
Definition solved (o : OmegaCore) : OmegaCore :=
  if isNormal (verdict o) then set_solvedPrimum (Some "INCONCLUSIVE") o else o.

Definition fresh (c : Catalyst) (h : Host) : World OmegaCore := mkWorld (new c) h.

(** The third test of [solvePrimum], as a proposition. *)
Definition conflictingAxioms (o : OmegaCore) : Prop :=
  gtb (entropy o) 66 = true
  \/ gtb (Math_abs (ratioOf (dataBuffer o))) 42 = true
  \/ (gtb (destructionBias o) 0.4 = true
      /\ gtb (joySum (dataBuffer o)) (painSum (dataBuffer o)) = true).

End OmegaSpec.

Module TerminaSpec.
Import Termina.

Local Open Scope string_scope.
Local Open Scope float_scope.

(** A computation that returns, leaves the engine as it is, and only
    posts lines and draws random numbers. *)
Definition postsOnly {A : Type} (m : M TerminaCore A) : Prop :=
  forall w, exists a ext k,
    m w = (Normal a, mkWorld (self w) (posted ext k (host w))).

Definition ingested (ev : WorldEvent) (r : number) (o : TerminaCore) : TerminaCore :=
  let noise := noiseOf (catalyst o) r in
  mkTerminaCore (catalyst o)
    (Math_max 0 (wrath o + deltaWrath ev + noise))
    (entropy o + Math_max 0 (deltaEntropy ev + Math_abs noise * 0.25))
    (dataBuffer o ++ [ev]) (solvedPrimeMover o) (cyclesRun o) (maxCyclesBeforeBreak o).

Definition ratioOf (buf : list WorldEvent) : number :=
  (ofNat (betrayals buf) + ofNat (deaths buf) * 2) / (joySum buf - painSum buf).

(** The two tests of [solvePrimeMover], in the order of the source. *)
Definition divisionCollapsed (buf : list WorldEvent) : bool :=
  ltb (Math_abs (joySum buf - painSum buf)) 1e-9.

Definition contradiction (o : TerminaCore) : bool :=
  gtb (entropy o) 66 || gtb (Math_abs (ratioOf (dataBuffer o))) 42.

Definition verdict (o : TerminaCore) : Completion unit :=
  if divisionCollapsed (dataBuffer o) then Throw (TerminaError divisionByZero)
  else if contradiction o then Throw (TerminaError noClosedForm)
  else Normal tt.

Definition solved (o : TerminaCore) : TerminaCore :=
  if isNormal (verdict o) then set_solvedPrimeMover (Some "INCONCLUSIVE") o else o.

Definition fresh (c : Catalyst) (h : Host) : World TerminaCore := mkWorld (new c) h.

(** The second test of [solvePrimeMover], as a proposition. *)
Definition noStableSolution (o : TerminaCore) : Prop :=
  gtb (entropy o) 66 = true
  \/ gtb (Math_abs (ratioOf (dataBuffer o))) 42 = true.

End TerminaSpec.

(** *** Concrete worlds *)

Local Open Scope float_scope.

(** A host whose [Math.random] always returns [0.5] (so the noise is [0]
    and no flavor line is drawn on ingest), with an empty chat. *)
Definition stillHost : Host := mkHost (fun _ => 0.5) 0 [].

Definition Harker (noise : number) : Catalyst :=
  mkCatalyst "Harker" noise
    [ "Warm hand in mine."%string; "The smell of old books."%string;
      "A promise I did not understand."%string;
      "A voice calling my name from very far away."%string ].

(** An event that only has a pain and a joy. *)
Definition felt (d : string) (p j : number) : WorldEvent :=
  mkWorldEvent d p j false false false.

Definition laugh : WorldEvent := felt "A child laughs at nothing in particular" 0 1.
Definition whisper : WorldEvent := felt "A whisper of comfort" 0 0.125.
Definition feast : WorldEvent := felt "A village harvest celebration" 0 40.
Definition parting : WorldEvent :=
  felt "Two lovers part, believing they will meet again" 2 2.

(** A fresh engine of the reference catalyst after [ingestEvent] was called
    on each of [evs]. *)
Definition omegaAfter (evs : list WorldEvent) : World Omega.OmegaCore :=
  snd (forOf Omega.ingestEvent evs (OmegaSpec.fresh (Harker 3.5) stillHost)).

Definition terminaAfter (evs : list WorldEvent) : World Termina.TerminaCore :=
  snd (forOf Termina.ingestEvent evs (TerminaSpec.fresh (Harker 3.5) stillHost)).

End Binary64.

(** ** Numbers *)

Lemma ltb_true_iff (x y : number) : ltb x y = true <-> x < y.
Proof.
  unfold ltb. rewrite negb_true_iff, <- not_true_iff_false, Qle_bool_iff.
  split; [apply Qnot_le_lt | apply Qlt_not_le].
Qed.

Lemma ltb_false_iff (x y : number) : ltb x y = false <-> y <= x.
Proof. unfold ltb. rewrite negb_false_iff. apply Qle_bool_iff. Qed.

Lemma gtb_true_iff (x y : number) : gtb x y = true <-> y < x.
Proof. apply ltb_true_iff. Qed.



(** ** The log *)

Lemma countLines_app (s : string) (l1 l2 : list LogLine) :
  countLines s (l1 ++ l2) = (countLines s l1 + countLines s l2)%nat.
Proof. unfold countLines. now rewrite filter_app, length_app. Qed.

Lemma countLines_cons (s : string) (l : LogLine) (ext : list LogLine) :
  countLines s (l :: ext) = ((if isLine s l then 1 else 0) + countLines s ext)%nat.
Proof. unfold countLines. simpl. now destruct (isLine s l). Qed.

Lemma countLines_absent (s : string) (ext : list LogLine) :
  Forall (fun l => isLine s l = false) ext -> countLines s ext = 0%nat.
Proof.
  unfold countLines. induction 1 as [|l ext Hl _ IH]; simpl; [reflexivity|].
  now rewrite Hl.
Qed.

Lemma bind_Normal {Core A B : Type} (m : M Core A) (k : A -> M Core B)
    (w w' : World Core) (a : A) :
  m w = (Normal a, w') -> bind m k w = k a w'.
Proof. unfold bind. now intros ->. Qed.

Lemma bind_Throw {Core A B : Type} (m : M Core A) (k : A -> M Core B)
    (w w' : World Core) (e : Error) :
  m w = (Throw e, w') -> bind m k w = (Throw e, w').
Proof. unfold bind. now intros ->. Qed.

Module OmegaFacts.
Import Omega OmegaSpec.

Ltac run :=
  cbv beta iota zeta delta
    [bind ret throw this update when pick Math_random self host
     randomSeq randomCalls chat nextRandom
     _log _alignmentGlyph mumbleHalfThought
     set_wrath set_entropy set_destructionBias set_alignmentDrift push_dataBuffer
     set_solvedPrimum set_cyclesRun push_logLines appendLog drawn ingested
     catalyst wrath entropy destructionBias alignmentDrift dataBuffer solvedPrimum
     cyclesRun maxCyclesBeforeBreak logLines fst snd].

Lemma quiet_count (ext : list LogLine) :
  Forall quiet ext ->
  countLines solveLine ext = 0%nat /\ countLines beginLine ext = 0%nat.
Proof.
  intros H. split; apply countLines_absent; eapply Forall_impl; try exact H;
    now intros l [? ?].
Qed.

Lemma logOnly_ret {A : Type} (a : A) : logOnly (ret a).
Proof.
  intros [[c wr en db ad buf sp cr mx lg] [sq rc ch]].
  exists a, [], 0%nat. run. rewrite app_nil_r. split; [reflexivity | constructor].
Qed.

Lemma logOnly_this {A : Type} (f : OmegaCore -> A) : logOnly (this f).
Proof.
  intros [[c wr en db ad buf sp cr mx lg] [sq rc ch]].
  eexists _, [], 0%nat. run. rewrite app_nil_r. split; [reflexivity | constructor].
Qed.

Lemma logOnly_random : logOnly Math_random.
Proof.
  intros [[c wr en db ad buf sp cr mx lg] [sq rc ch]].
  eexists _, [], 1%nat. run. rewrite app_nil_r. split; [reflexivity | constructor].
Qed.

Lemma logOnly_bind {A B : Type} (m : M OmegaCore A) (k : A -> M OmegaCore B) :
  logOnly m -> (forall a, logOnly (k a)) -> logOnly (bind m k).
Proof.
  intros Hm Hk w. destruct (Hm w) as (a & ext1 & k1 & E1 & Q1).
  destruct (Hk a (mkWorld (appendLog ext1 (self w)) (drawn k1 (host w))))
    as (b & ext2 & k2 & E2 & Q2).
  exists b, (ext1 ++ ext2), (k2 + k1)%nat. unfold bind. rewrite E1, E2. split.
  - unfold appendLog, drawn. simpl. now rewrite app_assoc, Nat.add_assoc.
  - apply Forall_app. now split.
Qed.

Lemma logOnly_log (msg : LogMsg) :
  (forall n, quiet (mkLogLine n msg)) -> logOnly (_log msg).
Proof.
  intros Hq [[c wr en db ad buf sp cr mx lg] [sq rc ch]].
  exists tt, [mkLogLine cr msg], 0%nat. run. split; [reflexivity|].
  constructor; [apply Hq | constructor].
Qed.

Lemma logOnly_when (c : bool) (m : M OmegaCore unit) :
  logOnly m -> logOnly (when c m).
Proof. intros Hm. destruct c; [exact Hm | apply logOnly_ret]. Qed.

Lemma logOnly_if {A : Type} (c : bool) (m1 m2 : M OmegaCore A) :
  logOnly m1 -> logOnly m2 -> logOnly (if c then m1 else m2).
Proof. now destruct c. Qed.

Ltac quiet_msg := intros ?; split; reflexivity.

Ltac log_only :=
  repeat first
    [ apply logOnly_log; quiet_msg
    | apply logOnly_this
    | apply logOnly_random
    | apply logOnly_ret
    | apply logOnly_when
    | apply logOnly_if
    | apply logOnly_bind; [| intros ?] ].

Lemma logOnly_pick (options : list string) : logOnly (pick options).
Proof. unfold pick. log_only. Qed.

Lemma logOnly_mumbleHalfThought : logOnly mumbleHalfThought.
Proof. unfold mumbleHalfThought. apply logOnly_bind; [apply logOnly_pick | intros ?]. log_only. Qed.

Lemma logOnly_attemptPartialInference : logOnly attemptPartialInference.
Proof.
  unfold attemptPartialInference. 
  repeat first [ apply logOnly_pick | progress log_only ].
Qed.

Lemma logOnly__checkForInstability : logOnly _checkForInstability.
Proof.
  unfold _checkForInstability.
  repeat first [ apply logOnly_mumbleHalfThought | progress log_only ].
Qed.

Ltac run_more :=
  cbv beta iota zeta delta
    [bind ret throw this update when Math_random self host
     randomSeq randomCalls chat nextRandom
     _log _alignmentGlyph ingestEvent solvePrimum runCycle
     set_wrath set_entropy set_destructionBias set_alignmentDrift push_dataBuffer
     set_solvedPrimum set_cyclesRun push_logLines appendLog drawn ingested noiseOf
     verdict solved dataInsufficient selfReferential conflicting ratioOf isNormal
     catalyst wrath entropy destructionBias alignmentDrift dataBuffer solvedPrimum
     cyclesRun maxCyclesBeforeBreak logLines fst snd].

Ltac quiet_lines :=
  repeat first
    [ assumption
    | apply Forall_nil
    | apply Forall_cons; [split; reflexivity|]
    | apply Forall_app; split ].

Lemma ingestEvent_run (ev : WorldEvent) (w : World OmegaCore) :
  exists ext k,
    ingestEvent ev w
    = (Normal tt,
       mkWorld (appendLog ext (ingested ev (nextRandom w) (self w))) (drawn k (host w)))
    /\ Forall quiet ext.
Proof.
  destruct w as [[c wr en db ad buf sp cr mx lg] [sq rc ch]].
  run_more. destruct (ltb (sq (S rc)) 0.5).
  - match goal with |- context [mumbleHalfThought ?W] =>
      destruct (logOnly_mumbleHalfThought W) as ([] & ext & k & -> & Hq) end.
    run_more. rewrite <- !app_assoc. cbn [app].
    eexists _, (k + 2)%nat. split.
    + do 3 f_equal. lia.
    + quiet_lines.
  - rewrite <- !app_assoc. cbn [app].
    eexists _, 2%nat. split; [reflexivity | quiet_lines].
Qed.

Lemma solvePrimum_run (w : World OmegaCore) :
  exists ext,
    solvePrimum w
    = (verdict (self w),
       mkWorld (appendLog (mkLogLine (cyclesRun (self w)) (Text solveLine) :: ext)
                  (solved (self w)))
         (drawn 1 (host w)))
    /\ Forall quiet ext.
Proof.
  destruct w as [[c wr en db ad buf sp cr mx lg] [sq rc ch]].
  run_more.
  repeat match goal with
         | |- context [if ?b then _ else _] => destruct b
         end;
    rewrite <- !app_assoc; cbn [app];
    (eexists; split; [reflexivity | quiet_lines]).
Qed.

Lemma appendLog_appendLog (e1 e2 : list LogLine) (o : OmegaCore) :
  appendLog e2 (appendLog e1 o) = appendLog (e1 ++ e2) o.
Proof. unfold appendLog. simpl. now rewrite app_assoc. Qed.

Lemma drawn_drawn (k1 k2 : nat) (h : Host) : drawn k2 (drawn k1 h) = drawn (k2 + k1) h.
Proof. unfold drawn. simpl. now rewrite Nat.add_assoc. Qed.

Lemma verdict_appendLog (ext : list LogLine) (o : OmegaCore) :
  verdict (appendLog ext o) = verdict o.
Proof. reflexivity. Qed.

Lemma solved_appendLog (ext : list LogLine) (o : OmegaCore) :
  solved (appendLog ext o) = appendLog ext (solved o).
Proof.
  unfold solved. rewrite verdict_appendLog. now destruct (isNormal (verdict o)).
Qed.

Lemma ingested_appendLog (ev : WorldEvent) (r : number) (ext : list LogLine)
    (o : OmegaCore) :
  ingested ev r (appendLog ext o) = appendLog ext (ingested ev r o).
Proof. reflexivity. Qed.

(** The same facts at a world in the form that a run keeps:
    [appendLog e o] in a host [drawn k h]. *)
Lemma _log_at (msg : LogMsg) (e : list LogLine) (o : OmegaCore) (k : nat) (h : Host) :
  _log msg (mkWorld (appendLog e o) (drawn k h))
  = (Normal tt, mkWorld (appendLog (e ++ [mkLogLine (cyclesRun o) msg]) o) (drawn k h)).
Proof.
  unfold _log, bind, this, update. cbn [self host]. unfold push_logLines.
  now rewrite <- appendLog_appendLog.
Qed.

Lemma logOnly_at {A : Type} (m : M OmegaCore A) (e : list LogLine) (o : OmegaCore)
    (k : nat) (h : Host) :
  logOnly m ->
  exists a ext k',
    m (mkWorld (appendLog e o) (drawn k h))
    = (Normal a, mkWorld (appendLog (e ++ ext) o) (drawn (k' + k) h))
    /\ Forall quiet ext.
Proof.
  intros H. destruct (H (mkWorld (appendLog e o) (drawn k h))) as (a & ext & k' & E & Q).
  exists a, ext, k'. rewrite E. cbn [self host].
  now rewrite appendLog_appendLog, drawn_drawn.
Qed.

Lemma ingestEvent_at (ev : WorldEvent) (e : list LogLine) (o : OmegaCore)
    (k : nat) (h : Host) :
  exists ext k',
    ingestEvent ev (mkWorld (appendLog e o) (drawn k h))
    = (Normal tt,
       mkWorld (appendLog (e ++ ext) (ingested ev (randomSeq h (k + randomCalls h)) o))
         (drawn (k' + k) h))
    /\ Forall quiet ext.
Proof.
  destruct (ingestEvent_run ev (mkWorld (appendLog e o) (drawn k h)))
    as (ext & k' & E & Q).
  exists ext, k'. rewrite E. cbn [self host]. unfold nextRandom. cbn [host].
  rewrite ingested_appendLog, appendLog_appendLog, drawn_drawn.
  split; [reflexivity | exact Q].
Qed.

Lemma solvePrimum_at (e : list LogLine) (o : OmegaCore) (k : nat) (h : Host) :
  exists ext,
    solvePrimum (mkWorld (appendLog e o) (drawn k h))
    = (verdict o,
       mkWorld (appendLog (e ++ mkLogLine (cyclesRun o) (Text solveLine) :: ext) (solved o))
         (drawn (1 + k) h))
    /\ Forall quiet ext.
Proof.
  destruct (solvePrimum_run (mkWorld (appendLog e o) (drawn k h))) as (ext & E & Q).
  exists ext. rewrite E. cbn [self host].
  rewrite verdict_appendLog, solved_appendLog, appendLog_appendLog, drawn_drawn.
  split; [reflexivity | exact Q].
Qed.

Ltac after E lemma :=
  match type of E with
  | _ = (_, mkWorld (appendLog ?e ?o) (drawn ?k ?h)) =>
      let H := fresh "Hnext" in pose proof (lemma e o k h) as H
  end.

Lemma runCycle_run (ev : WorldEvent) (w : World OmegaCore) :
  exists ext k,
    let core1 :=
      ingested ev (nextRandom w) (set_cyclesRun (cyclesRun (self w) + 1) (self w)) in
    let solving := (maxCyclesBeforeBreak (self w) <=? cyclesRun (self w) + 1)%nat in
    runCycle ev w
    = (if solving then verdict core1 else Normal tt,
       mkWorld (appendLog ext (if solving then solved core1 else core1))
         (drawn k (host w)))
    /\ countLines beginLine ext = 1%nat
    /\ countLines solveLine ext = (if solving then 1 else 0)%nat.
Proof.
  destruct w as [o [sq rc ch]]. unfold nextRandom. cbn [self host randomSeq randomCalls].
  set (h := mkHost sq rc ch). set (n := (cyclesRun o + 1)%nat).
  set (o1 := set_cyclesRun n o).
  destruct (ingestEvent_at ev [mkLogLine n (Text "----- CYCLE BEGIN -----")] o1 0 h)
    as (ext1 & k1 & E1 & Q1).
  change (randomSeq h (0 + randomCalls h)) with (sq rc) in E1.
  after E1 (fun e o k h => logOnly_at attemptPartialInference e o k h
                             logOnly_attemptPartialInference).
  destruct Hnext as ([] & ext2 & k2 & E2 & Q2).
  after E2 (fun e o k h => logOnly_at _checkForInstability e o k h
                             logOnly__checkForInstability).
  destruct Hnext as ([] & ext3 & k3 & E3 & Q3).
  destruct (quiet_count _ Q1) as [S1 B1].
  destruct (quiet_count _ Q2) as [S2 B2].
  destruct (quiet_count _ Q3) as [S3 B3].
  unfold runCycle.
  do 3 (erewrite bind_Normal by reflexivity).
  erewrite bind_Normal by exact E1.
  erewrite bind_Normal by exact E2.
  erewrite bind_Normal by exact E3.
  do 2 (erewrite bind_Normal by reflexivity).
  cbn [self maxCyclesBeforeBreak cyclesRun appendLog ingested o1 set_cyclesRun].
  fold n.
  destruct (maxCyclesBeforeBreak o <=? n)%nat; cbn [when].
  - after E3 solvePrimum_at. destruct Hnext as (ext4 & E4 & Q4).
    destruct (quiet_count _ Q4) as [S4 B4].
    unfold solved in *.
    destruct (verdict _) as [[]|err] eqn:V in E4.
    + erewrite bind_Normal by exact E4. rewrite _log_at.
      eexists _, _. split; [| split].
      * rewrite V. reflexivity.
      * rewrite !countLines_app, !countLines_cons, B1, B2, B3, B4. reflexivity.
      * rewrite !countLines_app, !countLines_cons, S1, S2, S3, S4. reflexivity.
    + erewrite bind_Throw by exact E4.
      eexists _, _. split; [| split].
      * rewrite V. reflexivity.
      * rewrite !countLines_app, !countLines_cons, B1, B2, B3, B4. reflexivity.
      * rewrite !countLines_app, !countLines_cons, S1, S2, S3, S4. reflexivity.
  - erewrite bind_Normal by reflexivity. rewrite _log_at.
    eexists _, _. split; [| split].
    + reflexivity.
    + rewrite !countLines_app, B1, B2, B3. reflexivity.
    + rewrite !countLines_app, S1, S2, S3. reflexivity.
Qed.

End OmegaFacts.

Module TerminaFacts.
Import Termina TerminaSpec.

Ltac run :=
  cbv beta iota zeta delta
    [bind ret throw this update when Math_random ChatMessage_create self host
     randomSeq randomCalls chat nextRandom
     log ingestEvent solvePrimeMover
     set_wrath set_entropy push_dataBuffer set_solvedPrimeMover set_cyclesRun
     posted ingested noiseOf
     verdict solved divisionCollapsed contradiction ratioOf isNormal
     catalyst wrath entropy dataBuffer solvedPrimeMover
     cyclesRun maxCyclesBeforeBreak fst snd].

Lemma quiet_count_posted (ext : list LogLine) :
  Forall quiet ext ->
  countLines solveLine ext = 0%nat /\ countLines beginLine ext = 0%nat.
Proof.
  intros H. split; apply countLines_absent; eapply Forall_impl; try exact H;
    now intros l [? ?].
Qed.

Lemma posted_posted (e1 e2 : list LogLine) (k1 k2 : nat) (h : Host) :
  posted e2 k2 (posted e1 k1 h) = posted (e1 ++ e2) (k2 + k1) h.
Proof. unfold posted. simpl. now rewrite app_assoc, Nat.add_assoc. Qed.

Lemma postsOnly_ret {A : Type} (a : A) : postsOnly (ret a).
Proof.
  intros [o [sq rc ch]]. exists a, [], 0%nat. run. rewrite app_nil_r.
  split; [reflexivity | constructor].
Qed.

Lemma postsOnly_this {A : Type} (f : TerminaCore -> A) : postsOnly (this f).
Proof.
  intros [o [sq rc ch]]. eexists _, [], 0%nat. run. rewrite app_nil_r.
  split; [reflexivity | constructor].
Qed.

Lemma postsOnly_random : postsOnly Math_random.
Proof.
  intros [o [sq rc ch]]. eexists _, [], 1%nat. run. rewrite app_nil_r.
  split; [reflexivity | constructor].
Qed.

Lemma postsOnly_bind {A B : Type} (m : M TerminaCore A) (k : A -> M TerminaCore B) :
  postsOnly m -> (forall a, postsOnly (k a)) -> postsOnly (bind m k).
Proof.
  intros Hm Hk w. destruct (Hm w) as (a & ext1 & k1 & E1 & Q1).
  destruct (Hk a (mkWorld (self w) (posted ext1 k1 (host w))))
    as (b & ext2 & k2 & E2 & Q2).
  exists b, (ext1 ++ ext2), (k2 + k1)%nat. unfold bind. rewrite E1, E2. split.
  - cbn [self host]. now rewrite posted_posted.
  - apply Forall_app. now split.
Qed.

Lemma postsOnly_log (msg : LogMsg) :
  (forall n, quiet (mkLogLine n msg)) -> postsOnly (log msg).
Proof.
  intros Hq [o [sq rc ch]].
  exists tt, [mkLogLine (cyclesRun o) msg], 0%nat. split; [reflexivity|].
  constructor; [apply Hq | constructor].
Qed.

Lemma postsOnly_when (c : bool) (m : M TerminaCore unit) :
  postsOnly m -> postsOnly (when c m).
Proof. intros Hm. destruct c; [exact Hm | apply postsOnly_ret]. Qed.

Lemma postsOnly_if {A : Type} (c : bool) (m1 m2 : M TerminaCore A) :
  postsOnly m1 -> postsOnly m2 -> postsOnly (if c then m1 else m2).
Proof. now destruct c. Qed.

Ltac quiet_msg := intros ?; split; reflexivity.

Ltac log_only :=
  repeat first
    [ apply postsOnly_log; quiet_msg
    | apply postsOnly_this
    | apply postsOnly_random
    | apply postsOnly_ret
    | apply postsOnly_when
    | apply postsOnly_if
    | apply postsOnly_bind; [| intros ?] ].

Lemma postsOnly_pick (options : list string) : postsOnly (pick options).
Proof. unfold pick. log_only. Qed.

Lemma postsOnly_mumbleHalfThought : postsOnly mumbleHalfThought.
Proof.
  unfold mumbleHalfThought. apply postsOnly_bind; [apply postsOnly_pick | intros ?].
  log_only.
Qed.

Lemma postsOnly_attemptPartialInference : postsOnly attemptPartialInference.
Proof.
  unfold attemptPartialInference.
  repeat first [ apply postsOnly_pick | progress log_only ].
Qed.

Lemma postsOnly__checkForInstability : postsOnly _checkForInstability.
Proof.
  unfold _checkForInstability.
  repeat first [ apply postsOnly_mumbleHalfThought | progress log_only ].
Qed.

Ltac quiet_lines :=
  repeat first
    [ assumption
    | apply Forall_nil
    | apply Forall_cons; [split; reflexivity|]
    | apply Forall_app; split ].

Lemma ingestEvent_posts (ev : WorldEvent) (w : World TerminaCore) :
  exists ext k,
    ingestEvent ev w
    = (Normal tt, mkWorld (ingested ev (nextRandom w) (self w)) (posted ext k (host w)))
    /\ Forall quiet ext.
Proof.
  destruct w as [[c wr en buf sp cr mx] [sq rc ch]].
  run. rewrite <- !app_assoc. cbn [app].
  eexists _, 1%nat. split; [reflexivity | quiet_lines].
Qed.

Lemma solvePrimeMover_run (w : World TerminaCore) :
  exists ext,
    solvePrimeMover w
    = (verdict (self w),
       mkWorld (solved (self w))
         (posted (mkLogLine (cyclesRun (self w)) (Text solveLine) :: ext) 0 (host w)))
    /\ Forall quiet ext.
Proof.
  destruct w as [[c wr en buf sp cr mx] [sq rc ch]].
  run.
  repeat match goal with
         | |- context [if ?b then _ else _] => destruct b
         end;
    rewrite <- !app_assoc; cbn [app];
    (eexists; split; [reflexivity | quiet_lines]).
Qed.

Lemma log_at (msg : LogMsg) (o : TerminaCore) (e : list LogLine) (k : nat) (h : Host) :
  log msg (mkWorld o (posted e k h))
  = (Normal tt, mkWorld o (posted (e ++ [mkLogLine (cyclesRun o) msg]) k h)).
Proof.
  unfold log, bind, this, ChatMessage_create, posted. cbn [self host randomSeq randomCalls chat].
  now rewrite app_assoc.
Qed.

Lemma postsOnly_at {A : Type} (m : M TerminaCore A) (o : TerminaCore) (e : list LogLine)
    (k : nat) (h : Host) :
  postsOnly m ->
  exists a ext k',
    m (mkWorld o (posted e k h))
    = (Normal a, mkWorld o (posted (e ++ ext) (k' + k) h))
    /\ Forall quiet ext.
Proof.
  intros H. destruct (H (mkWorld o (posted e k h))) as (a & ext & k' & E & Q).
  exists a, ext, k'. rewrite E. cbn [self host]. now rewrite posted_posted.
Qed.

Lemma ingestEvent_posts_at (ev : WorldEvent) (o : TerminaCore) (e : list LogLine)
    (k : nat) (h : Host) :
  exists ext k',
    ingestEvent ev (mkWorld o (posted e k h))
    = (Normal tt,
       mkWorld (ingested ev (randomSeq h (k + randomCalls h)) o)
         (posted (e ++ ext) (k' + k) h))
    /\ Forall quiet ext.
Proof.
  destruct (ingestEvent_posts ev (mkWorld o (posted e k h))) as (ext & k' & E & Q).
  exists ext, k'. rewrite E. cbn [self host]. unfold nextRandom. cbn [host].
  rewrite posted_posted. split; [reflexivity | exact Q].
Qed.

Lemma solvePrimeMover_at (o : TerminaCore) (e : list LogLine) (k : nat) (h : Host) :
  exists ext,
    solvePrimeMover (mkWorld o (posted e k h))
    = (verdict o,
       mkWorld (solved o)
         (posted (e ++ mkLogLine (cyclesRun o) (Text solveLine) :: ext) k h))
    /\ Forall quiet ext.
Proof.
  destruct (solvePrimeMover_run (mkWorld o (posted e k h))) as (ext & E & Q).
  exists ext. rewrite E. cbn [self host]. rewrite posted_posted.
  split; [reflexivity | exact Q].
Qed.

Ltac after E lemma :=
  match type of E with
  | _ = (_, mkWorld ?o (posted ?e ?k ?h)) =>
      let H := fresh "Hnext" in pose proof (lemma o e k h) as H
  end.

Lemma runCycle_posts (ev : WorldEvent) (w : World TerminaCore) :
  exists ext k,
    let core1 :=
      ingested ev (nextRandom w) (set_cyclesRun (cyclesRun (self w) + 1) (self w)) in
    let solving := (maxCyclesBeforeBreak (self w) <=? cyclesRun (self w) + 1)%nat in
    runCycle ev w
    = (if solving then verdict core1 else Normal tt,
       mkWorld (if solving then solved core1 else core1) (posted ext k (host w)))
    /\ countLines beginLine ext = 1%nat
    /\ countLines solveLine ext = (if solving then 1 else 0)%nat.
Proof.
  destruct w as [o [sq rc ch]]. unfold nextRandom. cbn [self host randomSeq randomCalls].
  set (h := mkHost sq rc ch). set (n := (cyclesRun o + 1)%nat).
  set (o1 := set_cyclesRun n o).
  destruct (ingestEvent_posts_at ev o1 [mkLogLine n (Text "----- CYCLE BEGIN -----")] 0 h)
    as (ext1 & k1 & E1 & Q1).
  change (randomSeq h (0 + randomCalls h)) with (sq rc) in E1.
  after E1 (fun o e k h => postsOnly_at attemptPartialInference o e k h
                             postsOnly_attemptPartialInference).
  destruct Hnext as ([] & ext2 & k2 & E2 & Q2).
  after E2 (fun o e k h => postsOnly_at _checkForInstability o e k h
                             postsOnly__checkForInstability).
  destruct Hnext as ([] & ext3 & k3 & E3 & Q3).
  destruct (quiet_count_posted _ Q1) as [S1 B1].
  destruct (quiet_count_posted _ Q2) as [S2 B2].
  destruct (quiet_count_posted _ Q3) as [S3 B3].
  unfold runCycle.
  do 3 (erewrite bind_Normal by reflexivity).
  erewrite bind_Normal by exact E1.
  erewrite bind_Normal by exact E2.
  erewrite bind_Normal by exact E3.
  do 2 (erewrite bind_Normal by reflexivity).
  cbn [self maxCyclesBeforeBreak cyclesRun ingested o1 set_cyclesRun].
  fold n.
  destruct (maxCyclesBeforeBreak o <=? n)%nat; cbn [when].
  - after E3 solvePrimeMover_at. destruct Hnext as (ext4 & E4 & Q4).
    destruct (quiet_count_posted _ Q4) as [S4 B4].
    unfold solved in *.
    destruct (verdict _) as [[]|err] eqn:V in E4.
    + erewrite bind_Normal by exact E4. rewrite log_at.
      eexists _, _. split; [| split].
      * rewrite V. reflexivity.
      * rewrite !countLines_app, !countLines_cons, B1, B2, B3, B4. reflexivity.
      * rewrite !countLines_app, !countLines_cons, S1, S2, S3, S4. reflexivity.
    + erewrite bind_Throw by exact E4.
      eexists _, _. split; [| split].
      * rewrite V. reflexivity.
      * rewrite !countLines_app, !countLines_cons, B1, B2, B3, B4. reflexivity.
      * rewrite !countLines_app, !countLines_cons, S1, S2, S3, S4. reflexivity.
  - erewrite bind_Normal by reflexivity. rewrite log_at.
    eexists _, _. split; [| split].
    + reflexivity.
    + rewrite !countLines_app, B1, B2, B3. reflexivity.
    + rewrite !countLines_app, S1, S2, S3. reflexivity.
Qed.

End TerminaFacts.

(** ** Sums over a buffer *)

Section Sums.
Variable f : WorldEvent -> number.

Lemma fold_sum_from (buf : list WorldEvent) (a : number) :
  fold_left (fun sum e => sum + f e) buf a == a + total f buf.
Proof.
  unfold total. revert a. induction buf as [|e buf IH]; intros a; cbn [fold_left].
  - lra.
  - rewrite (IH (a + f e)), (IH (0 + f e)). lra.
Qed.

Lemma total_cons (e : WorldEvent) (buf : list WorldEvent) :
  total f (e :: buf) == f e + total f buf.
Proof. unfold total at 1. cbn [fold_left]. rewrite fold_sum_from. lra. Qed.

Lemma total_snoc (buf : list WorldEvent) (e : WorldEvent) :
  total f (buf ++ [e]) = total f buf + f e.
Proof. unfold total. now rewrite fold_left_app. Qed.

Lemma total_Permutation (l l' : list WorldEvent) :
  Permutation l l' -> total f l == total f l'.
Proof.
  induction 1 as [| e l l' _ IH | e1 e2 l | l l' l'' _ IH1 _ IH2].
  - reflexivity.
  - rewrite !total_cons, IH. reflexivity.
  - rewrite !total_cons. lra.
  - now rewrite IH1.
Qed.

End Sums.

Lemma filter_length_Permutation {A : Type} (p : A -> bool) (l l' : list A) :
  Permutation l l' -> List.length (filter p l) = List.length (filter p l').
Proof.
  induction 1 as [| e l l' _ IH | e1 e2 l | l l' l'' _ IH1 _ IH2]; simpl.
  - reflexivity.
  - destruct (p e); simpl; now rewrite IH.
  - destruct (p e1), (p e2); reflexivity.
  - now rewrite IH1.
Qed.

Lemma forOf_app {Core A : Type} (body : A -> M Core unit) (l1 l2 : list A)
    (w : World Core) :
  forOf body (l1 ++ l2) w = bind (forOf body l1) (fun _ => forOf body l2) w.
Proof.
  revert w. induction l1 as [|a l1 IH]; intros w; simpl.
  - reflexivity.
  - unfold bind. destruct (body a w) as [[[]|e] w1]; [rewrite IH | ]; reflexivity.
Qed.

Lemma deltaEntropy_nonneg (ev : WorldEvent) : 0 <= Omega.deltaEntropy ev.
Proof.
  unfold Omega.deltaEntropy, Math_abs.
  pose proof (Qabs_nonneg (pain ev)). pose proof (Qabs_nonneg (joy ev)).
  destruct (death ev); lra.
Qed.

Lemma noiseOf_silent (c : Catalyst) (r : number) :
  emotionalNoise c == 0 -> noiseOf c r == 0.
Proof. unfold noiseOf. intros ->. lra. Qed.

Lemma split_last {A : Type} (l : list A) (n : nat) :
  List.length l = S n -> exists l1 a, l = l1 ++ [a] /\ List.length l1 = n.
Proof.
  intros Hl. destruct (exists_last (l := l)) as (l1 & a & ->).
  - intros ->. discriminate.
  - exists l1, a. split; [reflexivity|].
    rewrite length_app in Hl. cbn in Hl. lia.
Qed.

Module OmegaRun.
Import Omega OmegaSpec OmegaFacts.

(** One cycle, with the terminal field made explicit. *)
Lemma runCycle_shape (ev : WorldEvent) (w : World OmegaCore) :
  exists ext k sp,
    let core1 :=
      ingested ev (nextRandom w) (set_cyclesRun (cyclesRun (self w) + 1) (self w)) in
    let solving := (maxCyclesBeforeBreak (self w) <=? cyclesRun (self w) + 1)%nat in
    runCycle ev w
    = (if solving then verdict core1 else Normal tt,
       mkWorld (appendLog ext (set_solvedPrimum sp core1)) (drawn k (host w)))
    /\ (sp = solvedPrimum (self w)
        \/ (sp = Some "INCONCLUSIVE"%string /\ solving = true /\ verdict core1 = Normal tt))
    /\ countLines beginLine ext = 1%nat
    /\ countLines solveLine ext = (if solving then 1 else 0)%nat.
Proof.
  destruct (runCycle_run ev w) as (ext & k & E & B & S). cbv zeta in *.
  destruct (maxCyclesBeforeBreak (self w) <=? cyclesRun (self w) + 1)%nat.
  - unfold solved in E.
    destruct (verdict _) as [[]|err] eqn:V in E; cbn [isNormal] in E.
    + exists ext, k, (Some "INCONCLUSIVE"%string). rewrite E, V. auto 6.
    + exists ext, k, (solvedPrimum (self w)). rewrite E, V. auto.
  - exists ext, k, (solvedPrimum (self w)). rewrite E. auto.
Qed.




Lemma tallied_new (c : Catalyst) : emotionalNoise c == 0 -> tallied [] (new c).
Proof. intros H. repeat split; try reflexivity. exact H. Qed.

Lemma ingested_tallied (ev : WorldEvent) (r : number) (l0 : list WorldEvent)
    (o : OmegaCore) :
  tallied l0 o ->
  tallied (l0 ++ [ev]) (ingested ev r (set_cyclesRun (cyclesRun o + 1) o)).
Proof.
  intros (Hd & He & Hc & Hm & Hn). unfold tallied.
  cbn [ingested set_cyclesRun dataBuffer entropy cyclesRun maxCyclesBeforeBreak catalyst].
  repeat split; try assumption.
  - now rewrite Hd.
  - rewrite total_snoc, He. unfold Math_max, Math_abs.
    rewrite (noiseOf_silent _ r Hn).
    pose proof (deltaEntropy_nonneg ev) as Hpos.
    change (Qabs 0) with 0.
    rewrite Q.max_r; lra.
  - rewrite length_app, Hc. reflexivity.
Qed.

Lemma runCycle_tallied (ev : WorldEvent) (l0 : list WorldEvent) (w : World OmegaCore) :
  tallied l0 (self w) ->
  exists o1,
    tallied (l0 ++ [ev]) o1
    /\ tallied (l0 ++ [ev]) (self (snd (runCycle ev w)))
    /\ fst (runCycle ev w)
       = (if (13 <=? List.length l0 + 1)%nat then verdict o1 else Normal tt).
Proof.
  intros Ht. pose proof Ht as (_ & _ & Hc & Hm & _).
  destruct (runCycle_shape ev w) as (ext & k & sp & E & _). cbv zeta in E.
  pose proof (ingested_tallied ev (nextRandom w) l0 (self w) Ht) as H1.
  eexists. split; [exact H1 | split].
  - rewrite E. cbn [snd self]. exact H1.
  - rewrite E, Hm, Hc. reflexivity.
Qed.

Lemma runCycles_tallied (l1 : list WorldEvent) :
  forall (l0 : list WorldEvent) (w : World OmegaCore),
    tallied l0 (self w) ->
    (List.length l0 + List.length l1 <= 12)%nat ->
    fst (runCycles l1 w) = Normal tt
    /\ tallied (l0 ++ l1) (self (snd (runCycles l1 w))).
Proof.
  unfold runCycles. induction l1 as [|ev l1 IH]; intros l0 w Ht Hlen.
  - cbn. now rewrite app_nil_r.
  - cbn [List.length] in Hlen.
    destruct (runCycle_tallied ev l0 w Ht) as (o1 & _ & H1 & Hr).
    destruct (Nat.leb_spec 13 (List.length l0 + 1)); [lia|].
    cbn [forOf]. unfold bind.
    destruct (runCycle ev w) as [r w1]. cbn [fst snd] in *. subst r.
    replace (l0 ++ ev :: l1) with ((l0 ++ [ev]) ++ l1) by now rewrite <- app_assoc.
    apply IH; [exact H1 | rewrite length_app; cbn [List.length]; lia].
Qed.

Lemma verdict_entropy (o : OmegaCore) :
  (3 <= List.length (dataBuffer o))%nat ->
  3 <= Qabs (painSum (dataBuffer o)) + Qabs (joySum (dataBuffer o)) ->
  1e-6 <= Qabs (joySum (dataBuffer o) - painSum (dataBuffer o)) ->
  66 < entropy o ->
  verdict o = Throw error03.
Proof.
  intros Hlen Hsum Hden Hent. unfold verdict, dataInsufficient, selfReferential, conflicting.
  apply Nat.ltb_ge in Hlen. apply ltb_false_iff in Hsum, Hden.
  apply gtb_true_iff in Hent.
  unfold Math_abs. now rewrite Hlen, Hsum, Hden, Hent.
Qed.

Lemma default_aggregates (l : list WorldEvent) :
  Permutation l defaultEvents ->
  painSum l == 41.5 /\ joySum l == 13 /\ deaths l = 4%nat /\ betrayals l = 3%nat
  /\ total deltaEntropy l == 74.5 /\ List.length l = 13%nat.
Proof.
  intros P. repeat split.
  - change (painSum l) with (total pain l). now rewrite (total_Permutation _ _ _ P).
  - change (joySum l) with (total joy l). now rewrite (total_Permutation _ _ _ P).
  - unfold deaths. now rewrite (filter_length_Permutation _ _ _ P).
  - unfold betrayals. now rewrite (filter_length_Permutation _ _ _ P).
  - now rewrite (total_Permutation _ _ _ P).
  - now rewrite (Permutation_length P).
Qed.

Lemma default_run (l : list WorldEvent) (c : Catalyst) (h : Host) :
  Permutation l defaultEvents ->
  emotionalNoise c == 0 ->
  fst (runCycles l (fresh c h)) = Throw error03
  /\ tallied l (self (snd (runCycles l (fresh c h)))).
Proof.
  intros P Hc. destruct (default_aggregates l P) as (Hp & Hj & _ & _ & He & Hlen).
  destruct (split_last l 12 Hlen) as (l1 & ev & -> & Hl1).
  pose proof (tallied_new c Hc) as T0.
  destruct (runCycles_tallied l1 [] (fresh c h) T0) as [R1 T1]; [cbn; lia|].
  cbn [app] in T1. unfold runCycles in *.
  destruct (forOf runCycle l1 (fresh c h)) as [r w12] eqn:E12.
  cbn [fst snd] in *. subst r.
  destruct (runCycle_tallied ev l1 w12 T1) as (o1 & To & T13 & R13).
  rewrite Hl1 in R13. cbn [Nat.leb Nat.add] in R13.
  destruct (runCycle ev w12) as [r w13] eqn:E13. cbn [fst snd] in *. subst r.
  destruct To as (Hd & Hent & _).
  rewrite verdict_entropy in E13; rewrite ?Hd.
  - rewrite forOf_app. erewrite bind_Normal by exact E12.
    cbn [forOf]. erewrite bind_Throw by exact E13. split; [reflexivity | exact T13].
  - lia.
  - rewrite Hp, Hj. vm_compute. discriminate.
  - rewrite Hp, Hj. vm_compute. discriminate.
  - rewrite Hent, He. reflexivity.
Qed.

End OmegaRun.

Module TerminaRun.
Import Termina TerminaSpec TerminaFacts.

Lemma deltaEntropy_nonneg_termina (ev : WorldEvent) : 0 <= deltaEntropy ev.
Proof.
  unfold deltaEntropy, Math_abs.
  pose proof (Qabs_nonneg (pain ev)). pose proof (Qabs_nonneg (joy ev)).
  destruct (death ev); lra.
Qed.

(** One cycle, with the terminal field made explicit. *)
Lemma runCycle_posts_shape (ev : WorldEvent) (w : World TerminaCore) :
  exists ext k sp,
    let core1 :=
      ingested ev (nextRandom w) (set_cyclesRun (cyclesRun (self w) + 1) (self w)) in
    let solving := (maxCyclesBeforeBreak (self w) <=? cyclesRun (self w) + 1)%nat in
    runCycle ev w
    = (if solving then verdict core1 else Normal tt,
       mkWorld (set_solvedPrimeMover sp core1) (posted ext k (host w)))
    /\ (sp = solvedPrimeMover (self w)
        \/ (sp = Some "INCONCLUSIVE"%string /\ solving = true /\ verdict core1 = Normal tt))
    /\ countLines beginLine ext = 1%nat
    /\ countLines solveLine ext = (if solving then 1 else 0)%nat.
Proof.
  destruct (runCycle_posts ev w) as (ext & k & E & B & S). cbv zeta in *.
  destruct (maxCyclesBeforeBreak (self w) <=? cyclesRun (self w) + 1)%nat.
  - unfold solved in E.
    destruct (verdict _) as [[]|err] eqn:V in E; cbn [isNormal] in E.
    + exists ext, k, (Some "INCONCLUSIVE"%string). rewrite E, V. auto 6.
    + exists ext, k, (solvedPrimeMover (self w)). rewrite E, V. auto.
  - exists ext, k, (solvedPrimeMover (self w)). rewrite E. auto.
Qed.




Lemma tallied_new_termina (c : Catalyst) : emotionalNoise c == 0 -> tallied [] (new c).
Proof. intros H. repeat split; try reflexivity. exact H. Qed.

Lemma ingested_tallied_termina (ev : WorldEvent) (r : number) (l0 : list WorldEvent)
    (o : TerminaCore) :
  tallied l0 o ->
  tallied (l0 ++ [ev]) (ingested ev r (set_cyclesRun (cyclesRun o + 1) o)).
Proof.
  intros (Hd & He & Hc & Hm & Hn). unfold tallied.
  cbn [ingested set_cyclesRun dataBuffer entropy cyclesRun maxCyclesBeforeBreak catalyst].
  repeat split; try assumption.
  - now rewrite Hd.
  - rewrite total_snoc, He. unfold Math_max, Math_abs.
    rewrite (noiseOf_silent _ r Hn).
    pose proof (deltaEntropy_nonneg_termina ev) as Hpos.
    change (Qabs 0) with 0.
    rewrite Q.max_r; lra.
  - rewrite length_app, Hc. reflexivity.
Qed.

Lemma runCycle_tallied_termina (ev : WorldEvent) (l0 : list WorldEvent) (w : World TerminaCore) :
  tallied l0 (self w) ->
  exists o1,
    tallied (l0 ++ [ev]) o1
    /\ tallied (l0 ++ [ev]) (self (snd (runCycle ev w)))
    /\ fst (runCycle ev w)
       = (if (13 <=? List.length l0 + 1)%nat then verdict o1 else Normal tt).
Proof.
  intros Ht. pose proof Ht as (_ & _ & Hc & Hm & _).
  destruct (runCycle_posts_shape ev w) as (ext & k & sp & E & _). cbv zeta in E.
  pose proof (ingested_tallied_termina ev (nextRandom w) l0 (self w) Ht) as H1.
  eexists. split; [exact H1 | split].
  - rewrite E. cbn [snd self]. exact H1.
  - rewrite E, Hm, Hc. reflexivity.
Qed.

Lemma runCycles_tallied_termina (l1 : list WorldEvent) :
  forall (l0 : list WorldEvent) (w : World TerminaCore),
    tallied l0 (self w) ->
    (List.length l0 + List.length l1 <= 12)%nat ->
    fst (runCycles l1 w) = Normal tt
    /\ tallied (l0 ++ l1) (self (snd (runCycles l1 w))).
Proof.
  unfold runCycles. induction l1 as [|ev l1 IH]; intros l0 w Ht Hlen.
  - cbn. now rewrite app_nil_r.
  - cbn [List.length] in Hlen.
    destruct (runCycle_tallied_termina ev l0 w Ht) as (o1 & _ & H1 & Hr).
    destruct (Nat.leb_spec 13 (List.length l0 + 1)); [lia|].
    cbn [forOf]. unfold bind.
    destruct (runCycle ev w) as [r w1]. cbn [fst snd] in *. subst r.
    replace (l0 ++ ev :: l1) with ((l0 ++ [ev]) ++ l1) by now rewrite <- app_assoc.
    apply IH; [exact H1 | rewrite length_app; cbn [List.length]; lia].
Qed.

Lemma verdict_entropy_termina (o : TerminaCore) :
  1e-9 <= Qabs (joySum (dataBuffer o) - painSum (dataBuffer o)) ->
  66 < entropy o ->
  verdict o = Throw (TerminaError noClosedForm).
Proof.
  intros Hden Hent. unfold verdict, divisionCollapsed, contradiction.
  apply ltb_false_iff in Hden. apply gtb_true_iff in Hent.
  unfold Math_abs. now rewrite Hden, Hent.
Qed.

Lemma default_aggregates_termina (l : list WorldEvent) :
  Permutation l events ->
  painSum l == 41.5 /\ joySum l == 13 /\ deaths l = 4%nat /\ betrayals l = 3%nat
  /\ total deltaEntropy l == 74.5 /\ List.length l = 13%nat.
Proof.
  intros P. repeat split.
  - change (painSum l) with (total pain l). now rewrite (total_Permutation _ _ _ P).
  - change (joySum l) with (total joy l). now rewrite (total_Permutation _ _ _ P).
  - unfold deaths. now rewrite (filter_length_Permutation _ _ _ P).
  - unfold betrayals. now rewrite (filter_length_Permutation _ _ _ P).
  - now rewrite (total_Permutation _ _ _ P).
  - now rewrite (Permutation_length P).
Qed.

Lemma default_run_termina (l : list WorldEvent) (c : Catalyst) (h : Host) :
  Permutation l events ->
  emotionalNoise c == 0 ->
  fst (runCycles l (fresh c h)) = Throw (TerminaError noClosedForm)
  /\ tallied l (self (snd (runCycles l (fresh c h)))).
Proof.
  intros P Hc. destruct (default_aggregates_termina l P) as (Hp & Hj & _ & _ & He & Hlen).
  destruct (split_last l 12 Hlen) as (l1 & ev & -> & Hl1).
  pose proof (tallied_new_termina c Hc) as T0.
  destruct (runCycles_tallied_termina l1 [] (fresh c h) T0) as [R1 T1]; [cbn; lia|].
  cbn [app] in T1. unfold runCycles in *.
  destruct (forOf runCycle l1 (fresh c h)) as [r w12] eqn:E12.
  cbn [fst snd] in *. subst r.
  destruct (runCycle_tallied_termina ev l1 w12 T1) as (o1 & To & T13 & R13).
  rewrite Hl1 in R13. cbn [Nat.leb Nat.add] in R13.
  destruct (runCycle ev w12) as [r w13] eqn:E13. cbn [fst snd] in *. subst r.
  destruct To as (Hd & Hent & _).
  rewrite verdict_entropy_termina in E13; rewrite ?Hd.
  - rewrite forOf_app. erewrite bind_Normal by exact E12.
    cbn [forOf]. erewrite bind_Throw by exact E13. split; [reflexivity | exact T13].
  - rewrite Hp, Hj. vm_compute. discriminate.
  - rewrite Hent, He. reflexivity.
Qed.

End TerminaRun.

(** ** The properties *)

Import OmegaSpec.



(** *** C10 *)

(** C10: the solve step only reads the numeric state and the buffer.  In
    variant A, [solvePrimum] leaves the catalyst, [wrath], [entropy],
    [destructionBias], [alignmentDrift], [dataBuffer], [cyclesRun] and
    [maxCyclesBeforeBreak] as they are and appends lines to [logLines];
    in variant B, [solvePrimeMover] leaves the corresponding fields as they
    are and posts lines to the chat.  When the step throws, the terminal
    field ([solvedPrimum], [solvedPrimeMover]) is unchanged as well, so a
    null stays null; when it returns, the terminal field is
    "INCONCLUSIVE". *)
Theorem solve_frame :
  (forall w : World Omega.OmegaCore,
      let r := Omega.solvePrimum w in
      Omega.catalyst (self (snd r)) = Omega.catalyst (self w)
      /\ Omega.wrath (self (snd r)) = Omega.wrath (self w)
      /\ Omega.entropy (self (snd r)) = Omega.entropy (self w)
      /\ Omega.destructionBias (self (snd r)) = Omega.destructionBias (self w)
      /\ Omega.alignmentDrift (self (snd r)) = Omega.alignmentDrift (self w)
      /\ Omega.dataBuffer (self (snd r)) = Omega.dataBuffer (self w)
      /\ Omega.cyclesRun (self (snd r)) = Omega.cyclesRun (self w)
      /\ Omega.maxCyclesBeforeBreak (self (snd r)) = Omega.maxCyclesBeforeBreak (self w)
      /\ (exists ext, Omega.logLines (self (snd r)) = Omega.logLines (self w) ++ ext)
      /\ chat (host (snd r)) = chat (host w)
      /\ (forall e, fst r = Throw e ->
                    Omega.solvedPrimum (self (snd r)) = Omega.solvedPrimum (self w))
      /\ (fst r = Normal tt ->
          Omega.solvedPrimum (self (snd r)) = Some "INCONCLUSIVE"%string))
  /\ (forall w : World Termina.TerminaCore,
         let r := Termina.solvePrimeMover w in
         Termina.catalyst (self (snd r)) = Termina.catalyst (self w)
         /\ Termina.wrath (self (snd r)) = Termina.wrath (self w)
         /\ Termina.entropy (self (snd r)) = Termina.entropy (self w)
         /\ Termina.dataBuffer (self (snd r)) = Termina.dataBuffer (self w)
         /\ Termina.cyclesRun (self (snd r)) = Termina.cyclesRun (self w)
         /\ Termina.maxCyclesBeforeBreak (self (snd r))
            = Termina.maxCyclesBeforeBreak (self w)
         /\ (exists ext, chat (host (snd r)) = chat (host w) ++ ext)
         /\ (forall e, fst r = Throw e -> self (snd r) = self w)
         /\ (fst r = Normal tt ->
             Termina.solvedPrimeMover (self (snd r)) = Some "INCONCLUSIVE"%string)).
Proof.
  split.
  - intros w r. subst r. destruct (OmegaFacts.solvePrimum_run w) as (ext & -> & _).
    cbn [fst snd self host]. unfold solved.
    destruct (verdict (self w)) as [[]|err]; cbn;
      repeat (split; [reflexivity|]); (split; [eexists; reflexivity|]);
      (split; [reflexivity|]); split; intros; try reflexivity; discriminate.
  - intros w r. subst r.
    destruct (TerminaFacts.solvePrimeMover_run w) as (ext & -> & _).
    cbn [fst snd self host]. unfold TerminaSpec.solved.
    destruct (TerminaSpec.verdict (self w)) as [[]|err]; cbn;
      repeat (split; [reflexivity|]); (split; [eexists; reflexivity|]);
      split; intros; try reflexivity; discriminate.
Qed.

Lemma solve_frame_witness :
  Omega.solvedPrimum (self (snd (Omega.solvePrimum (omegaAfter [laugh; laugh]))))
  = None
  /\ Termina.solvedPrimeMover
       (self (snd (Termina.solvePrimeMover (terminaAfter [laugh; laugh; laugh]))))
     = Some "INCONCLUSIVE"%string.
Proof.
  split.
  - eapply (proj1 solve_frame (omegaAfter [laugh; laugh])).
    vm_compute. reflexivity.
  - apply (proj2 solve_frame (terminaAfter [laugh; laugh; laugh])).
    vm_compute. reflexivity.
Defined.

(** *** C7 *)







(** *** C8 *)











(** *** C9 *)




(** *** C4 *)

(** C4: with a catalyst whose [emotionalNoise] is 0, the thirteen default
    events (the two files list the same thirteen) fed in any order end the
    same way in every order: the thirteenth
    cycle's solve step throws (code "03" in variant A, the second
    [TerminaError] in variant B), and at that point the buffer holds the
    events fed, with [painSum = 41.5], [joySum = 13], 4 deaths,
    3 betrayals and the ratio [11 / (13 - 41.5) = -22/57], the entropy is
    74.5 and thirteen cycles have run. *)
Theorem default_events_in_any_order
    (l : list WorldEvent) (c : Catalyst) (h : Host) :
  Permutation l Omega.defaultEvents ->
  emotionalNoise c == 0 ->
  Termina.events = Omega.defaultEvents
  /\ (fst (Omega.runCycles l (OmegaSpec.fresh c h))
   = Throw (Omega.OmegaError "UNRESOLVED_φ_PRIMUM[03]: CONFLICTING_AXIOMS" "03")
   /\ Omega.dataBuffer (self (snd (Omega.runCycles l (OmegaSpec.fresh c h)))) = l
   /\ Omega.painSum l == 41.5
   /\ Omega.joySum l == 13
   /\ Omega.deaths l = 4%nat
   /\ Omega.betrayals l = 3%nat
   /\ Omega.ratioOf l == - (22 # 57)
   /\ Omega.entropy (self (snd (Omega.runCycles l (OmegaSpec.fresh c h)))) == 74.5
   /\ Omega.cyclesRun (self (snd (Omega.runCycles l (OmegaSpec.fresh c h)))) = 13%nat)
  /\ (fst (Termina.runCycles l (TerminaSpec.fresh c h))
      = Throw (Termina.TerminaError Termina.noClosedForm)
      /\ Termina.dataBuffer (self (snd (Termina.runCycles l (TerminaSpec.fresh c h)))) = l
      /\ Termina.painSum l == 41.5
      /\ Termina.joySum l == 13
      /\ Termina.deaths l = 4%nat
      /\ Termina.betrayals l = 3%nat
      /\ TerminaSpec.ratioOf l == - (22 # 57)
      /\ Termina.entropy (self (snd (Termina.runCycles l (TerminaSpec.fresh c h))))
         == 74.5
      /\ Termina.cyclesRun (self (snd (Termina.runCycles l (TerminaSpec.fresh c h))))
         = 13%nat).
Proof.
  intros P Hc. split; [reflexivity|]. split.
  - destruct (OmegaRun.default_run l c h P Hc) as (E & Hd & He & Hn & _).
    destruct (OmegaRun.default_aggregates l P) as (Hp & Hj & Hde & Hb & Ht & Hlen).
    repeat (split; [assumption|]). split; [| split; [now rewrite He | now rewrite Hn]].
    unfold Omega.ratioOf. rewrite Hp, Hj, Hde, Hb. reflexivity.
  - destruct (TerminaRun.default_run_termina l c h P Hc) as (E & Hd & He & Hn & _).
    destruct (TerminaRun.default_aggregates_termina l P)
      as (Hp & Hj & Hde & Hb & Ht & Hlen).
    repeat (split; [assumption|]). split; [| split; [now rewrite He | now rewrite Hn]].
    unfold TerminaSpec.ratioOf. rewrite Hp, Hj, Hde, Hb. reflexivity.
Qed.

Lemma default_events_in_any_order_witness :
  fst (Omega.runCycles (rev Omega.defaultEvents) (OmegaSpec.fresh (Harker 0) stillHost))
  = Throw (Omega.OmegaError "UNRESOLVED_φ_PRIMUM[03]: CONFLICTING_AXIOMS" "03").
Proof.
  apply (default_events_in_any_order (rev Omega.defaultEvents) (Harker 0) stillHost).
  - apply Permutation_sym, Permutation_rev.
  - reflexivity.
Defined.

(** *** C5 *)




(** ** The binary64 engines: how the methods run *)

Module Binary64Facts.
Import Binary64.

Lemma bind_Normal64 {Core A B : Type} (m : M Core A) (k : A -> M Core B)
    (w w' : World Core) (a : A) :
  m w = (Normal a, w') -> bind m k w = k a w'.
Proof. unfold bind. now intros ->. Qed.

Lemma bind_Throw64 {Core A B : Type} (m : M Core A) (k : A -> M Core B)
    (w w' : World Core) (e : Error) :
  m w = (Throw e, w') -> bind m k w = (Throw e, w').
Proof. unfold bind. now intros ->. Qed.

(** A property of the engine object that a computation keeps. *)
Definition keeps {Core A : Type} (P : Core -> Prop) (m : M Core A) : Prop :=
  forall w, P (self w) -> P (self (snd (m w))).

Section Keeps.
Context {Core : Type} (P : Core -> Prop).

Lemma keeps_ret {A : Type} (a : A) : keeps P (ret a).
Proof. intros w H. exact H. Qed.

Lemma keeps_throw {A : Type} (e : Error) : keeps P (@throw Core A e).
Proof. intros w H. exact H. Qed.

Lemma keeps_this {A : Type} (f : Core -> A) : keeps P (this f).
Proof. intros w H. exact H. Qed.

Lemma keeps_random : keeps P (@Math_random Core).
Proof. intros w H. exact H. Qed.

Lemma keeps_create (l : LogLine) : keeps P (@ChatMessage_create Core l).
Proof. intros w H. exact H. Qed.

Lemma keeps_update (f : Core -> Core) :
  (forall o, P o -> P (f o)) -> keeps P (update f).
Proof. intros Hf w H. apply Hf, H. Qed.

Lemma keeps_bind {A B : Type} (m : M Core A) (k : A -> M Core B) :
  keeps P m -> (forall a, keeps P (k a)) -> keeps P (bind m k).
Proof.
  intros Hm Hk w H. unfold bind. specialize (Hm w H).
  destruct (m w) as [[a|e] w1]; [apply Hk, Hm | exact Hm].
Qed.

Lemma keeps_when (c : bool) (m : M Core unit) : keeps P m -> keeps P (when c m).
Proof. intros Hm. destruct c; [exact Hm | apply keeps_ret]. Qed.

Lemma keeps_if {A : Type} (c : bool) (m1 m2 : M Core A) :
  keeps P m1 -> keeps P m2 -> keeps P (if c then m1 else m2).
Proof. now destruct c. Qed.

Lemma keeps_forOf {A : Type} (body : A -> M Core unit) (l : list A) :
  (forall a, keeps P (body a)) -> keeps P (forOf body l).
Proof.
  intros Hb. induction l as [|a l IH]; [apply keeps_ret|].
  cbn [forOf]. apply keeps_bind; [apply Hb | intros _; exact IH].
Qed.

Lemma keeps_pick (options : list string) : keeps P (@pick Core options).
Proof. unfold pick. apply keeps_bind; [apply keeps_random | intros r; apply keeps_ret]. Qed.

End Keeps.

Ltac keep_step :=
  lazymatch goal with
  | |- keeps _ (ret _) => apply keeps_ret
  | |- keeps _ (throw _) => apply keeps_throw
  | |- keeps _ (this _) => apply keeps_this
  | |- keeps _ Math_random => apply keeps_random
  | |- keeps _ (ChatMessage_create _) => apply keeps_create
  | |- keeps _ (pick _) => apply keeps_pick
  | |- keeps _ (when _ _) => apply keeps_when
  | |- keeps _ (if _ then _ else _) => apply keeps_if
  | |- keeps _ (bind _ _) => apply keeps_bind; [| intros ?]
  | |- keeps _ (let _ := _ in _) => cbv zeta
  end.

End Binary64Facts.

Module OmegaFacts64.
Import Binary64 Binary64.Omega Binary64.OmegaSpec Binary64Facts.

Ltac run :=
  cbv beta iota zeta delta
    [bind ret throw this update when Math_random self host
     randomSeq randomCalls chat nextRandom
     _log _alignmentGlyph ingestEvent solvePrimum
     set_wrath set_entropy set_destructionBias set_alignmentDrift push_dataBuffer
     set_solvedPrimum set_cyclesRun push_logLines appendLog drawn ingested noiseOf
     verdict solved dataInsufficient selfReferential conflicting ratioOf isNormal
     catalyst wrath entropy destructionBias alignmentDrift dataBuffer solvedPrimum
     cyclesRun maxCyclesBeforeBreak logLines fst snd].

Lemma logOnly_ret64 {A : Type} (a : A) : logOnly (ret a).
Proof.
  intros [[c wr en db ad buf sp cr mx lg] [sq rc ch]].
  exists a, [], 0%nat. run. now rewrite app_nil_r.
Qed.

Lemma logOnly_this64 {A : Type} (f : OmegaCore -> A) : logOnly (this f).
Proof.
  intros [[c wr en db ad buf sp cr mx lg] [sq rc ch]].
  eexists _, [], 0%nat. run. now rewrite app_nil_r.
Qed.

Lemma logOnly_random64 : logOnly Math_random.
Proof.
  intros [[c wr en db ad buf sp cr mx lg] [sq rc ch]].
  eexists _, [], 1%nat. run. now rewrite app_nil_r.
Qed.

Lemma logOnly_bind64 {A B : Type} (m : M OmegaCore A) (k : A -> M OmegaCore B) :
  logOnly m -> (forall a, logOnly (k a)) -> logOnly (bind m k).
Proof.
  intros Hm Hk w. destruct (Hm w) as (a & ext1 & k1 & E1).
  destruct (Hk a (mkWorld (appendLog ext1 (self w)) (drawn k1 (host w))))
    as (b & ext2 & k2 & E2).
  exists b, (ext1 ++ ext2), (k2 + k1)%nat. unfold bind. rewrite E1, E2.
  unfold appendLog, drawn. simpl. now rewrite app_assoc, Nat.add_assoc.
Qed.

Lemma logOnly_log64 (msg : LogMsg) : logOnly (_log msg).
Proof.
  intros [[c wr en db ad buf sp cr mx lg] [sq rc ch]].
  exists tt, [mkLogLine cr msg], 0%nat. run. reflexivity.
Qed.

Lemma logOnly_pick64 (options : list string) : logOnly (pick options).
Proof.
  unfold pick. apply logOnly_bind64; [apply logOnly_random64 | intros r; apply logOnly_ret64].
Qed.

Lemma logOnly_mumbleHalfThought64 : logOnly mumbleHalfThought.
Proof.
  unfold mumbleHalfThought.
  apply logOnly_bind64; [apply logOnly_pick64 | intros f; apply logOnly_log64].
Qed.

(** [ingestEvent] returns; the fields it leaves are [ingested], whatever
    is logged. *)
Lemma ingestEvent_run64 (ev : WorldEvent) (w : World OmegaCore) :
  exists ext k,
    ingestEvent ev w
    = (Normal tt,
       mkWorld (appendLog ext (ingested ev (nextRandom w) (self w))) (drawn k (host w))).
Proof.
  destruct w as [[c wr en db ad buf sp cr mx lg] [sq rc ch]].
  run. destruct (ltb (sq (S rc)) 0.5%float).
  - match goal with |- context [mumbleHalfThought ?W] =>
      destruct (logOnly_mumbleHalfThought64 W) as ([] & ext & k & ->) end.
    run. rewrite <- !app_assoc. cbn [app].
    eexists _, (k + 2)%nat. do 3 f_equal. lia.
  - rewrite <- !app_assoc. cbn [app].
    eexists _, 2%nat. reflexivity.
Qed.

(** [solvePrimum] ends as [verdict] says, leaves the fields [solved], and
    writes its first line first. *)
Lemma solvePrimum_run64 (w : World OmegaCore) :
  exists ext,
    solvePrimum w
    = (verdict (self w),
       mkWorld (appendLog (mkLogLine (cyclesRun (self w)) (Text solveLine) :: ext)
                  (solved (self w)))
         (drawn 1 (host w))).
Proof.
  destruct w as [[c wr en db ad buf sp cr mx lg] [sq rc ch]].
  run.
  repeat match goal with
         | |- context [if ?b then _ else _] => destruct b
         end;
    rewrite <- !app_assoc; cbn [app];
    (eexists; reflexivity).
Qed.

Ltac no_ratio := repeat (constructor; [reflexivity|]); constructor.

(** On the path of the second test no RATIO-COMPUTED line is written. *)
Lemma solvePrimum_loop64 (w : World OmegaCore) :
  dataInsufficient (dataBuffer (self w)) = false ->
  selfReferential (dataBuffer (self w)) = true ->
  exists ext,
    solvePrimum w
    = (Throw error02, mkWorld (appendLog ext (self w)) (drawn 1 (host w)))
    /\ Forall (fun l => isRatioLine l = false) ext.
Proof.
  destruct w as [[c wr en db ad buf sp cr mx lg] [sq rc ch]].
  unfold dataInsufficient, selfReferential. cbn [self dataBuffer].
  intros H1 H2. run. rewrite H1, H2.
  rewrite <- !app_assoc. cbn [app].
  eexists. split; [reflexivity | no_ratio].
Qed.

Lemma keeps_log64 (P : OmegaCore -> Prop) (msg : LogMsg) :
  (forall l o, P o -> P (push_logLines l o)) -> keeps P (_log msg).
Proof.
  intros H. unfold _log. apply keeps_bind; [apply keeps_this | intros n].
  apply keeps_update. apply H.
Qed.

End OmegaFacts64.

Module TerminaFacts64.
Import Binary64 Binary64.Termina Binary64.TerminaSpec Binary64Facts.

Ltac run :=
  cbv beta iota zeta delta
    [bind ret throw this update when Math_random ChatMessage_create self host
     randomSeq randomCalls chat nextRandom
     log ingestEvent solvePrimeMover
     set_wrath set_entropy push_dataBuffer set_solvedPrimeMover set_cyclesRun
     posted ingested noiseOf
     verdict solved divisionCollapsed contradiction ratioOf isNormal
     catalyst wrath entropy dataBuffer solvedPrimeMover
     cyclesRun maxCyclesBeforeBreak fst snd].

Lemma ingestEvent_posts64 (ev : WorldEvent) (w : World TerminaCore) :
  exists ext k,
    ingestEvent ev w
    = (Normal tt,
       mkWorld (ingested ev (nextRandom w) (self w)) (posted ext k (host w))).
Proof.
  destruct w as [[c wr en buf sp cr mx] [sq rc ch]].
  run. rewrite <- !app_assoc. cbn [app].
  eexists _, 1%nat. reflexivity.
Qed.

Lemma solvePrimeMover_run64 (w : World TerminaCore) :
  exists ext,
    solvePrimeMover w
    = (verdict (self w),
       mkWorld (solved (self w))
         (posted (mkLogLine (cyclesRun (self w)) (Text solveLine) :: ext) 0 (host w))).
Proof.
  destruct w as [[c wr en buf sp cr mx] [sq rc ch]].
  run.
  repeat match goal with
         | |- context [if ?b then _ else _] => destruct b
         end;
    rewrite <- !app_assoc; cbn [app];
    (eexists; reflexivity).
Qed.

Ltac no_ratio := repeat (constructor; [reflexivity|]); constructor.

Lemma solvePrimeMover_collapse64 (w : World TerminaCore) :
  divisionCollapsed (dataBuffer (self w)) = true ->
  exists ext,
    solvePrimeMover w
    = (Throw (TerminaError divisionByZero),
       mkWorld (self w) (posted ext 0 (host w)))
    /\ Forall (fun l => isRatioLine l = false) ext.
Proof.
  destruct w as [[c wr en buf sp cr mx] [sq rc ch]].
  unfold divisionCollapsed. cbn [self dataBuffer].
  intros H1. run. rewrite H1.
  rewrite <- !app_assoc. cbn [app].
  eexists. split; [reflexivity | no_ratio].
Qed.

End TerminaFacts64.

(** The terminal field over a run. *)

Module Binary64Run.
Import Binary64 Binary64Facts.

Definition terminalA (o : Omega.OmegaCore) : Prop :=
  nullOrInconclusive (Omega.solvedPrimum o).

Definition terminalB (o : Termina.TerminaCore) : Prop :=
  nullOrInconclusive (Termina.solvedPrimeMover o).

Lemma Omega_runCycles_terminal64 (evs : list WorldEvent) :
  keeps terminalA (Omega.runCycles evs).
Proof.
  assert (forall msg, keeps terminalA (Omega._log msg)) as Hlog.
  { intros msg. apply OmegaFacts64.keeps_log64. intros l o H. exact H. }
  assert (keeps terminalA Omega.mumbleHalfThought) as Hmumble.
  { unfold Omega.mumbleHalfThought.
    apply keeps_bind; [apply keeps_pick | intros f; apply Hlog]. }
  unfold Omega.runCycles. apply keeps_forOf. intros ev.
  unfold Omega.runCycle, Omega.ingestEvent, Omega.attemptPartialInference,
    Omega._checkForInstability, Omega.solvePrimum, Omega._alignmentGlyph.
  repeat lazymatch goal with
         | |- keeps _ (Omega._log _) => apply Hlog
         | |- keeps _ Omega.mumbleHalfThought => apply Hmumble
         | |- keeps _ (update _) =>
             apply keeps_update; intros o H; first [exact H | right; reflexivity]
         | |- _ => keep_step
         end.
Qed.

Lemma Termina_runCycles_terminal64 (evs : list WorldEvent) :
  keeps terminalB (Termina.runCycles evs).
Proof.
  assert (forall msg, keeps terminalB (Termina.log msg)) as Hlog.
  { intros msg. unfold Termina.log. repeat keep_step. }
  assert (keeps terminalB Termina.mumbleHalfThought) as Hmumble.
  { unfold Termina.mumbleHalfThought.
    apply keeps_bind; [apply keeps_pick | intros f; apply Hlog]. }
  unfold Termina.runCycles. apply keeps_forOf. intros ev.
  unfold Termina.runCycle, Termina.ingestEvent, Termina.attemptPartialInference,
    Termina._checkForInstability, Termina.solvePrimeMover.
  repeat lazymatch goal with
         | |- keeps _ (Termina.log _) => apply Hlog
         | |- keeps _ Termina.mumbleHalfThought => apply Hmumble
         | |- keeps _ (update _) =>
             apply keeps_update; intros o H; first [exact H | right; reflexivity]
         | |- _ => keep_step
         end.
Qed.

End Binary64Run.

(** ** Rounding to nearest does not pass a representable bound *)

Module Rounding.

Local Open Scope Z_scope.

Lemma digits2_pos_bounds (m : positive) :
  2 ^ (Zpos (digits2_pos m) - 1) <= Zpos m < 2 ^ Zpos (digits2_pos m).
Proof.
  induction m as [p IH | p IH |]; cbn [digits2_pos].
  - rewrite Pos2Z.inj_succ. change (Zpos p~1) with (2 * Zpos p + 1).
    replace (Z.succ (Zpos (digits2_pos p)) - 1) with (Z.succ (Zpos (digits2_pos p) - 1)) by lia.
    rewrite !Z.pow_succ_r by lia.
    revert IH. generalize (2 ^ (Zpos (digits2_pos p) - 1)) (2 ^ Zpos (digits2_pos p)). lia.
  - rewrite Pos2Z.inj_succ. change (Zpos p~0) with (2 * Zpos p).
    replace (Z.succ (Zpos (digits2_pos p)) - 1) with (Z.succ (Zpos (digits2_pos p) - 1)) by lia.
    rewrite !Z.pow_succ_r by lia.
    revert IH. generalize (2 ^ (Zpos (digits2_pos p) - 1)) (2 ^ Zpos (digits2_pos p)). lia.
  - cbn. lia.
Qed.

Lemma iter_pos_invariant {A : Type} (f : A -> A) (Inv : Z -> A -> Prop) :
  (forall k x, 0 <= k -> Inv k x -> Inv (k + 1) (f x)) ->
  forall (n : positive) (k : Z) (x : A),
    0 <= k -> Inv k x -> Inv (k + Zpos n) (SpecFloat.iter_pos f n x).
Proof.
  intros Hf. induction n as [n IH | n IH |]; intros k x Hk Hx; cbn [SpecFloat.iter_pos].
  - replace (k + Zpos n~1) with (k + 1 + Zpos n + Zpos n) by lia.
    apply IH; [lia|]. apply IH; [lia|]. now apply Hf.
  - replace (k + Zpos n~0) with (k + Zpos n + Zpos n) by lia.
    apply IH; [lia|]. now apply IH.
  - now apply Hf.
Qed.

(** What [k] right shifts of the mantissa [m] leave: the quotient, the
    round bit set only if something was shifted out. *)
Definition shifted (m : Z) (k : Z) (mrs : shr_record) : Prop :=
  0 <= shr_m mrs
  /\ shr_m mrs * 2 ^ k <= m
  /\ (shr_r mrs = true -> shr_m mrs * 2 ^ k < m).

Lemma shr_1_shifted (m k : Z) (mrs : shr_record) :
  0 <= k -> shifted m k mrs -> shifted m (k + 1) (shr_1 mrs).
Proof.
  intros Hk (H0 & H1 & H2). destruct mrs as [q r s]. cbn [shr_m shr_r] in *.
  assert (0 < 2 ^ k) as Hp by (apply Z.pow_pos_nonneg; lia).
  unfold shifted. rewrite Z.pow_add_r, Z.pow_1_r by lia.
  destruct q as [|[p|p|]|p]; cbn [shr_1 shr_m shr_r]; lia.
Qed.

Lemma shr_shifted (m : Z) (e n : Z) :
  0 <= m ->
  let '(mrs, e') := shr (Build_shr_record m false false) e n in
  e' = e + Z.max n 0 /\ shifted m (Z.max n 0) mrs.
Proof.
  intros Hm.
  assert (shifted m 0 (Build_shr_record m false false)) as H0.
  { unfold shifted. cbn. split; [lia|]. split; [lia | discriminate]. }
  destruct n as [|p|p]; cbn [shr].
  - split; [lia | exact H0].
  - split; [lia|]. replace (Z.max (Zpos p) 0) with (0 + Zpos p) by lia.
    apply (iter_pos_invariant shr_1 (shifted m)); [| lia | exact H0].
    intros k x Hk Hx. now apply shr_1_shifted.
  - split; [lia | exact H0].
Qed.

Lemma round_nearest_even_shifted (m k : Z) (mrs : shr_record) (B : Z) :
  0 <= k -> shifted m k mrs -> m <= B * 2 ^ k ->
  0 <= round_nearest_even (shr_m mrs) (loc_of_shr_record mrs) <= B.
Proof.
  intros Hk (H0 & H1 & H2) HB.
  assert (0 < 2 ^ k) as Hp by (apply Z.pow_pos_nonneg; lia).
  destruct mrs as [q r s]. cbn [shr_m shr_r] in *.
  assert (q <= B) as Hq by nia.
  assert (r = true -> q + 1 <= B) as Hr by (intros Hr; specialize (H2 Hr); nia).
  destruct r, s; cbn [loc_of_shr_record round_nearest_even];
    try destruct (Z.even q); lia.
Qed.

Local Abbreviation fexp := (SpecFloat.fexp prec emax).

Lemma fexp_monotone (a b : Z) : a <= b -> fexp a <= fexp b.
Proof. unfold SpecFloat.fexp. lia. Qed.

(** The magnitude of a number that is below another one. *)
Lemma digits_le (m mb : positive) (e eb : Z) :
  e <= eb -> Zpos m <= Zpos mb * 2 ^ (eb - e) ->
  Zpos (digits2_pos m) + e <= Zpos (digits2_pos mb) + eb.
Proof.
  intros He H.
  pose proof (digits2_pos_bounds m) as [Hm _].
  pose proof (digits2_pos_bounds mb) as [_ Hb].
  assert (0 < 2 ^ (eb - e)) as Hp by (apply Z.pow_pos_nonneg; lia).
  assert (2 ^ (Zpos (digits2_pos m) - 1) < 2 ^ (Zpos (digits2_pos mb) + (eb - e))) as Hlt.
  { rewrite Z.pow_add_r by lia. nia. }
  apply Z.pow_lt_mono_r_iff in Hlt; lia.
Qed.

(** A mantissa and an exponent in canonical form, below the overflow
    threshold: what [valid_binary] asks of a finite number. *)
Definition canonical (m : positive) (e : Z) : Prop :=
  fexp (Zpos (digits2_pos m) + e) = e /\ e <= emax - prec.

Lemma bounded_canonical (m : positive) (e : Z) :
  bounded prec emax m e = true -> canonical m e.
Proof.
  unfold bounded, canonical_mantissa, canonical. rewrite andb_true_iff.
  intros [H1 H2]. apply Z.eqb_eq in H1. apply Z.leb_le in H2. now split.
Qed.

(** The result of rounding [m * 2^e] is not above a representable
    [mb * 2^eb] that [m * 2^e] is not above. *)
Definition below (mb : positive) (eb : Z) (s : bool) (z : spec_float) : Prop :=
  match z with
  | S754_zero s' => s' = s
  | S754_finite s' q e' => s' = s /\ (e' < eb \/ (e' = eb /\ Zpos q <= Zpos mb))
  | S754_infinity _ | S754_nan => False
  end.

Lemma binary_round_aux_below (s : bool) (m : positive) (e : Z) (mb : positive) (eb : Z) :
  canonical mb eb ->
  e <= eb -> Zpos m <= Zpos mb * 2 ^ (eb - e) ->
  below mb eb s (binary_round_aux prec emax s (Zpos m) e loc_Exact).
Proof.
  intros [Hc Hmax] He Hm.
  unfold binary_round_aux, shr_fexp. cbn [shr_record_of_loc Zdigits2].
  set (n1 := fexp (Zpos (digits2_pos m) + e) - e).
  pose proof (shr_shifted (Zpos m) e n1 ltac:(lia)) as H1.
  destruct (shr (Build_shr_record (Zpos m) false false) e n1) as [mrs1 e1].
  destruct H1 as [E1 S1].
  assert (e1 <= eb) as He1.
  { pose proof (digits_le m mb e eb He Hm) as Hd.
    apply fexp_monotone in Hd. rewrite Hc in Hd. lia. }
  set (m1 := round_nearest_even (shr_m mrs1) (loc_of_shr_record mrs1)).
  assert (0 <= m1 <= Zpos mb * 2 ^ (eb - e1)) as Hm1.
  { apply (round_nearest_even_shifted (Zpos m) (Z.max n1 0)); [lia | exact S1 |].
    rewrite <- Z.mul_assoc, <- Z.pow_add_r by lia.
    replace (eb - e1 + Z.max n1 0) with (eb - e) by lia. exact Hm. }
  set (n2 := fexp (Zdigits2 m1 + e1) - e1).
  pose proof (shr_shifted m1 e1 n2 ltac:(lia)) as H2.
  destruct (shr (Build_shr_record m1 false false) e1 n2) as [mrs2 e2].
  destruct H2 as [E2 (S2a & S2b & _)].
  destruct (shr_m mrs2) as [|q|q] eqn:Eq; [reflexivity | | lia].
  assert (0 < 2 ^ Z.max n2 0) as Hp2 by (apply Z.pow_pos_nonneg; lia).
  destruct m1 as [|p1|p1]; [lia | | lia].
  assert (e2 <= eb) as He2.
  { pose proof (digits_le p1 mb e1 eb He1 (proj2 Hm1)) as Hd.
    apply fexp_monotone in Hd. rewrite Hc in Hd. cbn [Zdigits2] in n2. lia. }
  assert (Zpos q <= Zpos mb * 2 ^ (eb - e2)) as Hq.
  { assert (Zpos q * 2 ^ Z.max n2 0 <= Zpos mb * 2 ^ (eb - e2) * 2 ^ Z.max n2 0) as H.
    { rewrite <- Z.mul_assoc, <- Z.pow_add_r by lia.
      replace (eb - e2 + Z.max n2 0) with (eb - e1) by lia. lia. }
    nia. }
  replace (e2 <=? emax - prec) with true by (symmetry; apply Z.leb_le; lia).
  split; [reflexivity|].
  destruct (Z.eq_dec e2 eb) as [-> | Hne]; [right | left; lia].
  split; [reflexivity|]. now rewrite Z.sub_diag, Z.pow_0_r, Z.mul_1_r in Hq.
Qed.

Lemma below_leb (mb : positive) (eb : Z) (s : bool) (z : spec_float) :
  below mb eb s z -> SFleb (SFabs z) (S754_finite false mb eb) = true.
Proof.
  destruct z as [s'|s'| |s' q e']; cbn [below SFabs]; try contradiction.
  - reflexivity.
  - intros [_ H]. unfold SFleb, SFcompare.
    destruct H as [H | [-> H]].
    + now rewrite (proj2 (Z.compare_lt_iff _ _) H).
    + rewrite Z.compare_refl. change (Pos.compare_cont Eq q mb) with (q ?= mb)%positive.
      destruct (q ?= mb)%positive eqn:E; try reflexivity.
      apply Pos.compare_gt_iff in E. lia.
Qed.

End Rounding.

Module Rounding64.
Import Rounding.

Local Open Scope Z_scope.

Local Abbreviation fexp := (SpecFloat.fexp prec emax).

Lemma pos_iter_xO (m d : positive) : Zpos (Pos.iter xO m d) = Zpos m * 2 ^ Zpos d.
Proof.
  induction d as [|d IH] using Pos.peano_ind.
  - cbn [Pos.iter]. lia.
  - rewrite Pos.iter_succ, Pos2Z.inj_succ, Z.pow_succ_r by lia.
    change (Zpos (Pos.iter xO m d)~0) with (2 * Zpos (Pos.iter xO m d)). lia.
Qed.

Lemma shl_align_spec (m : positive) (e e0 : Z) :
  snd (shl_align m e e0) = Z.min e e0
  /\ Zpos (fst (shl_align m e e0)) = Zpos m * 2 ^ (e - Z.min e e0).
Proof.
  unfold shl_align. destruct (e0 - e) as [|d|d] eqn:E; cbn [fst snd].
  - replace (Z.min e e0) with e by lia. rewrite Z.sub_diag. cbn. lia.
  - replace (Z.min e e0) with e by lia. rewrite Z.sub_diag. cbn. lia.
  - replace (Z.min e e0) with e0 by lia. split; [reflexivity|].
    rewrite pos_iter_xO. f_equal. f_equal. lia.
Qed.

Lemma binary_round_below (s : bool) (m : positive) (e : Z) (mb : positive) (eb : Z) :
  canonical mb eb ->
  e <= eb -> Zpos m <= Zpos mb * 2 ^ (eb - e) ->
  below mb eb s (binary_round prec emax s m e).
Proof.
  intros Hc He Hm. unfold binary_round.
  pose proof (shl_align_spec m e (fexp (Zpos (digits2_pos m) + e))) as [E1 E2].
  destruct (shl_align m e (fexp (Zpos (digits2_pos m) + e))) as [mz ez].
  cbn [fst snd] in E1, E2.
  apply binary_round_aux_below; [exact Hc | lia |].
  rewrite E2.
  replace (eb - ez) with ((eb - e) + (e - ez)) by lia.
  rewrite Z.pow_add_r by lia.
  assert (0 < 2 ^ (e - ez)) by (apply Z.pow_pos_nonneg; lia).
  rewrite <- E1. nia.
Qed.

(** A canonical mantissa has at most 53 digits. *)
Lemma canonical_mantissa_bound (m : positive) (e : Z) :
  canonical m e -> Zpos m < 2 ^ 53.
Proof.
  intros [Hc _]. pose proof (digits2_pos_bounds m) as [_ H].
  assert (Zpos (digits2_pos m) <= 53) as Hd.
  { unfold SpecFloat.fexp in Hc. change prec with 53 in Hc. lia. }
  eapply Z.lt_le_trans; [exact H|]. apply Z.pow_le_mono_r; lia.
Qed.

(** A canonical number that is not above [2^(52 + eb)], the number of
    mantissa [2^52] and exponent [eb]. *)
Lemma canonical_le_pow2 (m : positive) (e eb : Z) :
  canonical m e ->
  e < eb \/ (e = eb /\ Zpos m <= 2 ^ 52) ->
  e <= eb /\ Zpos m <= 2 ^ 52 * 2 ^ (eb - e).
Proof.
  intros Hc H. pose proof (canonical_mantissa_bound m e Hc) as Hm.
  destruct H as [H | [-> H]].
  - split; [lia|]. rewrite <- Z.pow_add_r by lia.
    eapply Z.le_trans; [apply Z.lt_le_incl, Hm|]. apply Z.pow_le_mono_r; lia.
  - split; [lia|]. rewrite Z.sub_diag. cbn. lia.
Qed.

Lemma SFleb_finite (m mb : positive) (e eb : Z) :
  SFleb (S754_finite false m e) (S754_finite false mb eb) = true ->
  e < eb \/ (e = eb /\ Zpos m <= Zpos mb).
Proof.
  unfold SFleb, SFcompare. destruct (Z.compare_spec e eb) as [-> | H | H].
  - change (Pos.compare_cont Eq m mb) with (m ?= mb)%positive.
    destruct (Pos.compare_spec m mb); try discriminate; intros _; right; split; lia.
  - intros _. now left.
  - discriminate.
Qed.

Lemma SFltb_finite (m mb : positive) (e eb : Z) :
  SFltb (S754_finite false m e) (S754_finite false mb eb) = true ->
  e < eb \/ (e = eb /\ Zpos m <= Zpos mb).
Proof.
  unfold SFltb, SFcompare. destruct (Z.compare_spec e eb) as [-> | H | H].
  - change (Pos.compare_cont Eq m mb) with (m ?= mb)%positive.
    destruct (Pos.compare_spec m mb); try discriminate; intros _; right; split; lia.
  - intros _. now left.
  - discriminate.
Qed.

Local Abbreviation SFone := (S754_finite false 4503599627370496 (-52)).
Local Abbreviation SFtwo := (S754_finite false 4503599627370496 (-51)).

Lemma canonical_one : canonical 4503599627370496 (-52).
Proof. split; [reflexivity | discriminate]. Qed.

Lemma canonical_two : canonical 4503599627370496 (-51).
Proof. split; [reflexivity | discriminate]. Qed.

Lemma valid_canonical (x : float) (s : bool) (m : positive) (e : Z) :
  Prim2SF x = S754_finite s m e -> canonical m e.
Proof.
  intros E. pose proof (Prim2SF_valid x) as H. rewrite E in H.
  now apply bounded_canonical.
Qed.

(** The product with a factor of magnitude at most 1, at the level of
    the specification. *)
Lemma SFmul_below (sx sy : bool) (mx my : positive) (ex ey : Z) :
  canonical mx ex -> canonical my ey ->
  SFleb (S754_finite false my ey) SFone = true ->
  below mx ex (xorb sx sy)
    (SFmul prec emax (S754_finite sx mx ex) (S754_finite sy my ey)).
Proof.
  intros Hx Hy Hle. cbn [SFmul].
  apply SFleb_finite in Hle. apply (canonical_le_pow2 _ _ _ Hy) in Hle.
  destruct Hle as [He Hm].
  rewrite <- Z.pow_add_r in Hm by lia.
  replace (52 + (-52 - ey)) with (- ey) in Hm by lia.
  apply binary_round_aux_below; [exact Hx | lia |].
  replace (ex - (ex + ey)) with (- ey) by lia.
  rewrite Pos2Z.inj_mul. nia.
Qed.

Lemma is_finite_cases (a : float) :
  is_finite a = true ->
  match Prim2SF a with
  | S754_zero _ | S754_finite _ _ _ => True
  | S754_infinity _ | S754_nan => False
  end.
Proof.
  unfold is_finite, is_nan, is_infinity.
  rewrite !FloatAxioms.eqb_spec, abs_spec.
  change (Prim2SF infinity) with (S754_infinity false).
  destruct (Prim2SF a) as [s|s| |s m e]; intros H; try exact I;
    try destruct s; discriminate H.
Qed.

(** [|a * u| <= |a|] for a finite [a] and [|u| <= 1]: the product is
    rounded, and [|a|] is a number of the format. *)
Lemma mul_abs_le (a u : float) :
  is_finite a = true ->
  (abs u <=? 1)%float = true ->
  (abs (a * u) <=? abs a)%float = true.
Proof.
  intros Ha Hu. apply is_finite_cases in Ha.
  rewrite leb_spec, abs_spec in Hu. rewrite leb_spec, !abs_spec, mul_spec.
  change (Prim2SF 1) with SFone in Hu.
  destruct (Prim2SF a) as [sx|sx| |sx mx ex] eqn:Ea; try contradiction;
    destruct (Prim2SF u) as [sy|sy| |sy my ey] eqn:Eu; try discriminate Hu;
    try reflexivity.
  cbn [SFabs] in Hu |- *.
  apply (below_leb mx ex (xorb sx sy)).
  apply SFmul_below; [exact (valid_canonical a _ _ _ Ea) | exact (valid_canonical u _ _ _ Eu) | exact Hu].
Qed.

(** [Math.random() * 2 - 1] lies in [[-1, 1]] for a draw in [[0, 1)]. *)
Lemma doubled_minus_one (r : float) :
  (0 <=? r)%float = true ->
  (r <? 1)%float = true ->
  (abs (r * 2 - 1) <=? 1)%float = true.
Proof.
  intros H0 H1. rewrite leb_spec in H0. rewrite ltb_spec in H1.
  pose proof (Prim2SF_valid (r * 2)) as Hv.
  rewrite leb_spec, abs_spec, sub_spec. rewrite mul_spec in Hv |- *.
  change (Prim2SF 0) with (S754_zero false) in H0.
  change (Prim2SF 1) with SFone in *. change (Prim2SF 2) with SFtwo in *.
  destruct (Prim2SF r) as [s|s| |s m e] eqn:Er; try discriminate H1;
    [destruct s; reflexivity | destruct s; (discriminate H0 || discriminate H1) |].
  destruct s; [discriminate H0|]. clear H0.
  apply SFltb_finite in H1.
  apply (canonical_le_pow2 _ _ _ (valid_canonical r _ _ _ Er)) in H1.
  destruct H1 as [He Hm].
  rewrite <- Z.pow_add_r in Hm by lia.
  replace (52 + (-52 - e))%Z with (- e)%Z in Hm by lia.
  assert (below 4503599627370496 (-51) false (SF64mul (S754_finite false m e) SFtwo))
    as Hb.
  { unfold SF64mul. cbn [SFmul xorb].
    apply binary_round_aux_below; [exact canonical_two | lia |].
    replace (-51 - (e + -51))%Z with (- e)%Z by lia.
    rewrite Pos2Z.inj_mul. nia. }
  destruct (SF64mul (S754_finite false m e) SFtwo) as [s2|s2| |s2 q e2];
    try contradiction.
  - destruct s2; reflexivity.
  - destruct Hb as [-> Hb].
    apply bounded_canonical in Hv.
    apply (canonical_le_pow2 _ _ _ Hv) in Hb. destruct Hb as [He2 Hq].
    rewrite <- Z.pow_add_r in Hq by lia.
    replace (52 + (-51 - e2))%Z with (1 - e2)%Z in Hq by lia.
    unfold SF64sub. cbn [SFsub cond_Zopp].
    pose proof (shl_align_spec q e2 (Z.min e2 (-52))) as [_ Eq].
    pose proof (shl_align_spec 4503599627370496 (-52) (Z.min e2 (-52))) as [_ Eo].
    set (ez := Z.min e2 (-52)) in *.
    replace (Z.min e2 ez) with ez in Eq by lia.
    replace (Z.min (-52) ez) with ez in Eo by lia.
    rewrite Eq, Eo.
    assert (0 < 2 ^ (e2 - ez))%Z as Hp1 by (apply Z.pow_pos_nonneg; lia).
    assert (Zpos q * 2 ^ (e2 - ez) <= 2 * 2 ^ (- ez))%Z as Hup.
    { replace (2 * 2 ^ (- ez))%Z with (2 ^ (1 - e2) * 2 ^ (e2 - ez))%Z; [nia|].
      rewrite <- Z.pow_add_r by lia. replace (1 - e2 + (e2 - ez))%Z with (Z.succ (- ez)) by lia.
      rewrite Z.pow_succ_r by lia. reflexivity. }
    assert (4503599627370496 * 2 ^ (-52 - ez) = 2 ^ (- ez))%Z as Hone.
    { change 4503599627370496%Z with (2 ^ 52)%Z. rewrite <- Z.pow_add_r by lia.
      f_equal. lia. }
    rewrite Hone.
    assert (0 < 2 ^ (- ez))%Z as Hp by (apply Z.pow_pos_nonneg; lia).
    set (D := (Zpos q * 2 ^ (e2 - ez) - 2 ^ (- ez))%Z).
    assert (- 2 ^ (- ez) <= D <= 2 ^ (- ez))%Z as HD by (unfold D; lia).
    apply (below_leb 4503599627370496 (-52) (D <? 0)%Z).
    unfold binary_normalize.
    destruct D as [|d|d] eqn:ED; [reflexivity | |];
      (apply binary_round_below; [exact canonical_one | lia |]);
      rewrite Hone; lia.
Qed.

(** [|x| <= |a|] is [|x| <= a] when [0 <= a]. *)
Lemma leb_abs_nonneg (x a : float) :
  (0 <=? a)%float = true ->
  (x <=? abs a)%float = true ->
  (x <=? a)%float = true.
Proof.
  rewrite !leb_spec, abs_spec. change (Prim2SF 0) with (S754_zero false).
  destruct (Prim2SF a) as [s|s| |s m e]; try discriminate; destruct s; try discriminate;
    destruct (Prim2SF x) as [s'|s'| |s' m' e']; try destruct s'; intros _ H; exact H.
Qed.

(** Subtracting [0] changes nothing. *)
Lemma sub_zero (x : float) : (x - 0)%float = x.
Proof.
  apply Prim2SF_inj. rewrite sub_spec. change (Prim2SF 0) with (S754_zero false).
  destruct (Prim2SF x) as [s|s| |s m e]; try destruct s; reflexivity.
Qed.

(** Adding [0] to a number that is not [-0] changes nothing. *)
Lemma add_zero_abs (x : float) : (abs x + 0)%float = abs x.
Proof.
  apply Prim2SF_inj. rewrite add_spec, abs_spec. change (Prim2SF 0) with (S754_zero false).
  destruct (Prim2SF x) as [s|s| |s m e]; reflexivity.
Qed.

End Rounding64.

(** ** The properties that depend on rounding, over binary64 *)

Local Open Scope float_scope.

Lemma solvePrimum_fst64 (w : Binary64.World Binary64.Omega.OmegaCore) :
  fst (Binary64.Omega.solvePrimum w) = Binary64.OmegaSpec.verdict (Binary64.self w).
Proof. destruct (OmegaFacts64.solvePrimum_run64 w) as (ext & ->). reflexivity. Qed.

Lemma solvePrimum_self64 (w : Binary64.World Binary64.Omega.OmegaCore) :
  Binary64.Omega.solvedPrimum (Binary64.self (snd (Binary64.Omega.solvePrimum w)))
  = Binary64.Omega.solvedPrimum (Binary64.OmegaSpec.solved (Binary64.self w)).
Proof. destruct (OmegaFacts64.solvePrimum_run64 w) as (ext & ->). reflexivity. Qed.

Lemma solvePrimeMover_fst64 (w : Binary64.World Binary64.Termina.TerminaCore) :
  fst (Binary64.Termina.solvePrimeMover w)
  = Binary64.TerminaSpec.verdict (Binary64.self w).
Proof. destruct (TerminaFacts64.solvePrimeMover_run64 w) as (ext & ->). reflexivity. Qed.

Lemma solvePrimeMover_self64 (w : Binary64.World Binary64.Termina.TerminaCore) :
  Binary64.self (snd (Binary64.Termina.solvePrimeMover w))
  = Binary64.TerminaSpec.solved (Binary64.self w).
Proof. destruct (TerminaFacts64.solvePrimeMover_run64 w) as (ext & ->). reflexivity. Qed.

(** *** C1 *)

(** C1, as amended: in variant A, [solvePrimum] throws the [OmegaError]
    with code "01" (DATA_INSUFFICIENT) exactly when the buffer holds fewer
    than 3 events or [|painSum| + |joySum| < 3], the two sums and the test
    being the binary64 ones of the code: whatever the rest of the state is,
    the test coming before the two other failure tests. *)
Theorem solvePrimum_data_insufficient (w : Binary64.World Binary64.Omega.OmegaCore) :
  let buf := Binary64.Omega.dataBuffer (Binary64.self w) in
  (List.length buf < 3)%nat
  \/ Binary64.ltb (Binary64.Math_abs (Binary64.Omega.painSum buf)
                   + Binary64.Math_abs (Binary64.Omega.joySum buf)) 3 = true
  <-> fst (Binary64.Omega.solvePrimum w)
      = Throw (Binary64.Omega.OmegaError "UNRESOLVED_φ_PRIMUM[01]: DATA_INSUFFICIENT" "01").
Proof.
  intros buf. rewrite solvePrimum_fst64.
  unfold Binary64.OmegaSpec.verdict, Binary64.OmegaSpec.dataInsufficient. fold buf.
  rewrite <- Nat.ltb_lt, <- orb_true_iff.
  destruct ((List.length buf <? 3)%nat
            || Binary64.ltb (Binary64.Math_abs (Binary64.Omega.painSum buf)
                             + Binary64.Math_abs (Binary64.Omega.joySum buf)) 3).
  - split; reflexivity.
  - split; [discriminate|].
    destruct (Binary64.OmegaSpec.selfReferential buf);
      [discriminate|]. destruct (Binary64.OmegaSpec.conflicting (Binary64.self w));
      discriminate.
Qed.

(** Three pains of 1, 1 and 0.9999999999999999: their binary64 sum is 3. *)
Definition nearlyThree : list Binary64.WorldEvent :=
  [ Binary64.felt "A first wound" 1 0; Binary64.felt "A second wound" 1 0;
    Binary64.felt "A wound that almost was" 0.9999999999999999 0 ].

Lemma solvePrimum_data_insufficient_witness :
  (Binary64.gtb (Binary64.Omega.entropy
                   (Binary64.self (Binary64.omegaAfter [Binary64.feast; Binary64.feast])))
     66 = true
   /\ fst (Binary64.Omega.solvePrimum (Binary64.omegaAfter [Binary64.feast; Binary64.feast]))
      = Throw (Binary64.Omega.OmegaError "UNRESOLVED_φ_PRIMUM[01]: DATA_INSUFFICIENT" "01"))
  /\ (Binary64.Omega.painSum nearlyThree = 3
      /\ fst (Binary64.Omega.solvePrimum (Binary64.omegaAfter nearlyThree))
         <> Throw (Binary64.Omega.OmegaError
                     "UNRESOLVED_φ_PRIMUM[01]: DATA_INSUFFICIENT" "01")).
Proof.
  split; split.
  - vm_compute. reflexivity.
  - apply (proj1 (solvePrimum_data_insufficient
                    (Binary64.omegaAfter [Binary64.feast; Binary64.feast]))).
    left. vm_compute. lia.
  - vm_compute. reflexivity.
  - intros H.
    apply (proj2 (solvePrimum_data_insufficient (Binary64.omegaAfter nearlyThree))) in H.
    destruct H as [H | H]; vm_compute in H; [lia | discriminate H].
Defined.

(** C1 fails in variant B: [solvePrimeMover] has no test on the size of
    the sample.  After two events were ingested, whose sums add up to 2, it
    returns and sets INCONCLUSIVE; and a run of thirteen cycles whose sums
    add up to 1.625 returns, with the terminal field INCONCLUSIVE. *)
Lemma solvePrimeMover_has_no_sample_test :
  List.length (Binary64.Termina.dataBuffer
                 (Binary64.self (Binary64.terminaAfter [Binary64.laugh; Binary64.laugh])))
  = 2%nat
  /\ Binary64.ltb
       (Binary64.Math_abs (Binary64.Termina.painSum [Binary64.laugh; Binary64.laugh])
        + Binary64.Math_abs (Binary64.Termina.joySum [Binary64.laugh; Binary64.laugh])) 3
     = true
  /\ fst (Binary64.Termina.solvePrimeMover
            (Binary64.terminaAfter [Binary64.laugh; Binary64.laugh]))
     = Normal tt
  /\ Binary64.Termina.solvedPrimeMover
       (Binary64.self
          (snd (Binary64.Termina.solvePrimeMover
                  (Binary64.terminaAfter [Binary64.laugh; Binary64.laugh]))))
     = Some "INCONCLUSIVE"%string
  /\ Binary64.ltb
       (Binary64.Math_abs (Binary64.Termina.painSum (repeat Binary64.whisper 13))
        + Binary64.Math_abs (Binary64.Termina.joySum (repeat Binary64.whisper 13))) 3
     = true
  /\ fst (Binary64.Termina.runCycles (repeat Binary64.whisper 13)
            (Binary64.TerminaSpec.fresh (Binary64.Harker 3.5) Binary64.stillHost))
     = Normal tt
  /\ Binary64.Termina.solvedPrimeMover
       (Binary64.self
          (snd (Binary64.Termina.runCycles (repeat Binary64.whisper 13)
                  (Binary64.TerminaSpec.fresh (Binary64.Harker 3.5) Binary64.stillHost))))
     = Some "INCONCLUSIVE"%string.
Proof. repeat split; vm_compute; reflexivity. Qed.

(** *** C2 *)

Lemma solvePrimum_third_test64 (w : Binary64.World Binary64.Omega.OmegaCore) :
  let buf := Binary64.Omega.dataBuffer (Binary64.self w) in
  (3 <= List.length buf)%nat ->
  Binary64.ltb (Binary64.Math_abs (Binary64.Omega.painSum buf)
                + Binary64.Math_abs (Binary64.Omega.joySum buf)) 3 = false ->
  Binary64.ltb (Binary64.Math_abs (Binary64.Omega.joySum buf - Binary64.Omega.painSum buf))
    1e-6 = false ->
  (fst (Binary64.Omega.solvePrimum w)
   = Throw (Binary64.Omega.OmegaError "UNRESOLVED_φ_PRIMUM[03]: CONFLICTING_AXIOMS" "03")
   <-> Binary64.OmegaSpec.conflictingAxioms (Binary64.self w))
  /\ (~ Binary64.OmegaSpec.conflictingAxioms (Binary64.self w) ->
      fst (Binary64.Omega.solvePrimum w) = Normal tt
      /\ Binary64.Omega.solvedPrimum (Binary64.self (snd (Binary64.Omega.solvePrimum w)))
         = Some "INCONCLUSIVE"%string).
Proof.
  intros buf Hlen Hsum Hden.
  rewrite solvePrimum_fst64, solvePrimum_self64.
  unfold Binary64.OmegaSpec.solved, Binary64.OmegaSpec.verdict,
    Binary64.OmegaSpec.dataInsufficient, Binary64.OmegaSpec.selfReferential.
  fold buf. apply Nat.ltb_ge in Hlen. rewrite Hlen, Hsum, Hden. cbn [orb].
  assert (Binary64.OmegaSpec.conflicting (Binary64.self w) = true
          <-> Binary64.OmegaSpec.conflictingAxioms (Binary64.self w)) as Hc.
  { unfold Binary64.OmegaSpec.conflicting, Binary64.OmegaSpec.conflictingAxioms.
    rewrite !orb_true_iff, andb_true_iff. tauto. }
  rewrite <- Hc.
  destruct (Binary64.OmegaSpec.conflicting (Binary64.self w)); cbn; split.
  - split; reflexivity.
  - intros H. now destruct H.
  - split; discriminate.
  - intros _. split; reflexivity.
Qed.

Lemma solvePrimeMover_second_test64 (w : Binary64.World Binary64.Termina.TerminaCore) :
  let buf := Binary64.Termina.dataBuffer (Binary64.self w) in
  Binary64.ltb
    (Binary64.Math_abs (Binary64.Termina.joySum buf - Binary64.Termina.painSum buf))
    1e-9 = false ->
  (fst (Binary64.Termina.solvePrimeMover w)
   = Throw (Binary64.Termina.TerminaError Binary64.Termina.noClosedForm)
   <-> Binary64.TerminaSpec.noStableSolution (Binary64.self w))
  /\ (~ Binary64.TerminaSpec.noStableSolution (Binary64.self w) ->
      fst (Binary64.Termina.solvePrimeMover w) = Normal tt
      /\ Binary64.Termina.solvedPrimeMover
           (Binary64.self (snd (Binary64.Termina.solvePrimeMover w)))
         = Some "INCONCLUSIVE"%string).
Proof.
  intros buf Hden.
  rewrite solvePrimeMover_fst64, solvePrimeMover_self64.
  unfold Binary64.TerminaSpec.solved, Binary64.TerminaSpec.verdict,
    Binary64.TerminaSpec.divisionCollapsed.
  fold buf. rewrite Hden.
  assert (Binary64.TerminaSpec.contradiction (Binary64.self w) = true
          <-> Binary64.TerminaSpec.noStableSolution (Binary64.self w)) as Hc.
  { unfold Binary64.TerminaSpec.contradiction, Binary64.TerminaSpec.noStableSolution.
    now rewrite orb_true_iff. }
  rewrite <- Hc.
  destruct (Binary64.TerminaSpec.contradiction (Binary64.self w)); cbn; split.
  - split; reflexivity.
  - intros H. now destruct H.
  - split; discriminate.
  - intros _. split; reflexivity.
Qed.

(** C2, as amended: once the earlier tests have passed, [solvePrimum]
    (variant A) throws the error with code "03" exactly when
    [entropy > 66], or [|ratio| > 42], or [destructionBias > 0.4] and
    [joySum > painSum]; [solvePrimeMover] (variant B), whose one earlier
    test is the one on the denominator, throws its second [TerminaError],
    an error without a code, exactly when [entropy > 66] or [|ratio| > 42].
    The sums, the quotient and the comparisons are the binary64 ones of
    the code.  Otherwise each of them returns and sets the terminal field
    to "INCONCLUSIVE"; and a run of cycles of a fresh engine leaves the
    terminal field null or "INCONCLUSIVE", in both variants. *)
Theorem solve_third_failure_or_inconclusive :
  (forall w : Binary64.World Binary64.Omega.OmegaCore,
      let buf := Binary64.Omega.dataBuffer (Binary64.self w) in
      (3 <= List.length buf)%nat ->
      Binary64.ltb (Binary64.Math_abs (Binary64.Omega.painSum buf)
                    + Binary64.Math_abs (Binary64.Omega.joySum buf)) 3 = false ->
      Binary64.ltb
        (Binary64.Math_abs (Binary64.Omega.joySum buf - Binary64.Omega.painSum buf))
        1e-6 = false ->
      (fst (Binary64.Omega.solvePrimum w)
       = Throw (Binary64.Omega.OmegaError "UNRESOLVED_φ_PRIMUM[03]: CONFLICTING_AXIOMS" "03")
       <-> Binary64.OmegaSpec.conflictingAxioms (Binary64.self w))
      /\ (~ Binary64.OmegaSpec.conflictingAxioms (Binary64.self w) ->
          fst (Binary64.Omega.solvePrimum w) = Normal tt
          /\ Binary64.Omega.solvedPrimum
               (Binary64.self (snd (Binary64.Omega.solvePrimum w)))
             = Some "INCONCLUSIVE"%string))
  /\ (forall w : Binary64.World Binary64.Termina.TerminaCore,
         let buf := Binary64.Termina.dataBuffer (Binary64.self w) in
         Binary64.ltb
           (Binary64.Math_abs (Binary64.Termina.joySum buf - Binary64.Termina.painSum buf))
           1e-9 = false ->
         (fst (Binary64.Termina.solvePrimeMover w)
          = Throw (Binary64.Termina.TerminaError Binary64.Termina.noClosedForm)
          <-> Binary64.TerminaSpec.noStableSolution (Binary64.self w))
         /\ code (Binary64.Termina.TerminaError Binary64.Termina.noClosedForm) = None
         /\ (~ Binary64.TerminaSpec.noStableSolution (Binary64.self w) ->
             fst (Binary64.Termina.solvePrimeMover w) = Normal tt
             /\ Binary64.Termina.solvedPrimeMover
                  (Binary64.self (snd (Binary64.Termina.solvePrimeMover w)))
                = Some "INCONCLUSIVE"%string))
  /\ (forall (c : Binary64.Catalyst) (h : Binary64.Host) (evs : list Binary64.WorldEvent),
         nullOrInconclusive
           (Binary64.Omega.solvedPrimum
              (Binary64.self
                 (snd (Binary64.Omega.runCycles evs (Binary64.OmegaSpec.fresh c h))))))
  /\ (forall (c : Binary64.Catalyst) (h : Binary64.Host) (evs : list Binary64.WorldEvent),
         nullOrInconclusive
           (Binary64.Termina.solvedPrimeMover
              (Binary64.self
                 (snd (Binary64.Termina.runCycles evs (Binary64.TerminaSpec.fresh c h)))))).
Proof.
  split; [exact solvePrimum_third_test64|].
  split.
  { intros w buf Hden. destruct (solvePrimeMover_second_test64 w Hden) as [H1 H2].
    split; [exact H1 | split; [reflexivity | exact H2]]. }
  split.
  - intros c h evs. apply (Binary64Run.Omega_runCycles_terminal64 evs). now left.
  - intros c h evs. apply (Binary64Run.Termina_runCycles_terminal64 evs). now left.
Qed.

(** Twelve events without pain or joy, then a betrayal whose joy is
    0.023809523809523808: the exact quotient [1 / joySum] is above 42, the
    binary64 one is 42. *)
Definition fortyTwo : list Binary64.WorldEvent :=
  repeat (Binary64.felt "Nothing happens" 0 0) 12
  ++ [ Binary64.mkWorldEvent "A promise is broken" 0 0.023809523809523808
         false true false ].

Lemma solve_third_failure_or_inconclusive_witness :
  fst (Binary64.Omega.solvePrimum
         (Binary64.omegaAfter [Binary64.feast; Binary64.feast; Binary64.feast]))
  = Throw (Binary64.Omega.OmegaError "UNRESOLVED_φ_PRIMUM[03]: CONFLICTING_AXIOMS" "03")
  /\ fst (Binary64.Termina.solvePrimeMover
            (Binary64.terminaAfter [Binary64.laugh; Binary64.laugh; Binary64.laugh]))
     = Normal tt
  /\ ((Binary64.ofNat (Binary64.Termina.betrayals fortyTwo)
       + Binary64.ofNat (Binary64.Termina.deaths fortyTwo) * 2)
      / (Binary64.Termina.joySum fortyTwo - Binary64.Termina.painSum fortyTwo) = 42
      /\ fst (Binary64.Termina.solvePrimeMover (Binary64.terminaAfter fortyTwo))
         = Normal tt).
Proof.
  split; [| split; [| split]].
  - apply (proj1 solve_third_failure_or_inconclusive
             (Binary64.omegaAfter [Binary64.feast; Binary64.feast; Binary64.feast])).
    + vm_compute. lia.
    + vm_compute. reflexivity.
    + vm_compute. reflexivity.
    + left. vm_compute. reflexivity.
  - apply (proj1 (proj2 solve_third_failure_or_inconclusive)
             (Binary64.terminaAfter [Binary64.laugh; Binary64.laugh; Binary64.laugh])).
    + vm_compute. reflexivity.
    + intros [H | H]; vm_compute in H; discriminate H.
  - vm_compute. reflexivity.
  - apply (proj1 (proj2 solve_third_failure_or_inconclusive)
             (Binary64.terminaAfter fortyTwo)).
    + vm_compute. reflexivity.
    + intros [H | H]; vm_compute in H; discriminate H.
Defined.

(** C2 fails in variant B: after three events that leave
    [|joySum - painSum| = 120] and [entropy = 120 > 66], [solvePrimeMover]
    throws an error that has no code at all, hence not the code "03". *)
Lemma solvePrimeMover_error_has_no_code :
  Binary64.ltb
    (Binary64.Math_abs
       (Binary64.Termina.joySum [Binary64.feast; Binary64.feast; Binary64.feast]
        - Binary64.Termina.painSum [Binary64.feast; Binary64.feast; Binary64.feast]))
    1e-9 = false
  /\ Binary64.gtb
       (Binary64.Termina.entropy
          (Binary64.self
             (Binary64.terminaAfter [Binary64.feast; Binary64.feast; Binary64.feast])))
       66 = true
  /\ exists e : Error,
       fst (Binary64.Termina.solvePrimeMover
              (Binary64.terminaAfter [Binary64.feast; Binary64.feast; Binary64.feast]))
       = Throw e
       /\ code e = None
       /\ code e <> Some "03"%string.
Proof.
  split; [vm_compute; reflexivity|].
  split; [vm_compute; reflexivity|].
  eexists. split; [vm_compute; reflexivity|]. split; [reflexivity | discriminate].
Qed.

(** *** C3 *)

(** C3, as amended: in variant A, [solvePrimum] past the DATA_INSUFFICIENT
    test with [|joySum - painSum| < 1e-6] throws the error with code "02"
    (SELF_REFERENTIAL_LOOP); in variant B, [solvePrimeMover] with
    [|joySum - painSum| < 1e-9] throws its first [TerminaError], which
    has no code.  The sums, their difference and the tests are the binary64
    ones of the code.  In both, the lines written hold no RATIO-COMPUTED
    line: the ratio is not computed. *)
Theorem solve_near_zero_denominator :
  (forall w : Binary64.World Binary64.Omega.OmegaCore,
      let buf := Binary64.Omega.dataBuffer (Binary64.self w) in
      (3 <= List.length buf)%nat ->
      Binary64.ltb (Binary64.Math_abs (Binary64.Omega.painSum buf)
                    + Binary64.Math_abs (Binary64.Omega.joySum buf)) 3 = false ->
      Binary64.ltb
        (Binary64.Math_abs (Binary64.Omega.joySum buf - Binary64.Omega.painSum buf))
        1e-6 = true ->
      fst (Binary64.Omega.solvePrimum w)
      = Throw (Binary64.Omega.OmegaError
                 "UNRESOLVED_φ_PRIMUM[02]: SELF_REFERENTIAL_LOOP (joy - pain → 0)" "02")
      /\ exists ext,
           Binary64.Omega.logLines (Binary64.self (snd (Binary64.Omega.solvePrimum w)))
           = Binary64.Omega.logLines (Binary64.self w) ++ ext
           /\ Forall (fun l => Binary64.isRatioLine l = false) ext)
  /\ (forall w : Binary64.World Binary64.Termina.TerminaCore,
         let buf := Binary64.Termina.dataBuffer (Binary64.self w) in
         Binary64.ltb
           (Binary64.Math_abs (Binary64.Termina.joySum buf - Binary64.Termina.painSum buf))
           1e-9 = true ->
         fst (Binary64.Termina.solvePrimeMover w)
         = Throw (Binary64.Termina.TerminaError Binary64.Termina.divisionByZero)
         /\ code (Binary64.Termina.TerminaError Binary64.Termina.divisionByZero) = None
         /\ exists ext,
              Binary64.chat (Binary64.host (snd (Binary64.Termina.solvePrimeMover w)))
              = Binary64.chat (Binary64.host w) ++ ext
              /\ Forall (fun l => Binary64.isRatioLine l = false) ext).
Proof.
  split.
  - intros w buf Hlen Hsum Hden.
    destruct (OmegaFacts64.solvePrimum_loop64 w) as (ext & -> & Hext).
    + unfold Binary64.OmegaSpec.dataInsufficient. fold buf.
      apply Nat.ltb_ge in Hlen. now rewrite Hlen, Hsum.
    + exact Hden.
    + split; [reflexivity|]. exists ext. split; [reflexivity | exact Hext].
  - intros w buf Hden.
    destruct (TerminaFacts64.solvePrimeMover_collapse64 w) as (ext & -> & Hext).
    + exact Hden.
    + split; [reflexivity|]. split; [reflexivity|].
      exists ext. split; [reflexivity | exact Hext].
Qed.

Lemma solve_near_zero_denominator_witness :
  fst (Binary64.Omega.solvePrimum
         (Binary64.omegaAfter [Binary64.parting; Binary64.parting; Binary64.parting]))
  = Throw (Binary64.Omega.OmegaError
             "UNRESOLVED_φ_PRIMUM[02]: SELF_REFERENTIAL_LOOP (joy - pain → 0)" "02")
  /\ fst (Binary64.Termina.solvePrimeMover
            (Binary64.terminaAfter [Binary64.parting; Binary64.parting; Binary64.parting]))
     = Throw (Binary64.Termina.TerminaError Binary64.Termina.divisionByZero).
Proof.
  split.
  - apply (proj1 solve_near_zero_denominator
             (Binary64.omegaAfter [Binary64.parting; Binary64.parting; Binary64.parting])).
    + vm_compute. lia.
    + vm_compute. reflexivity.
    + vm_compute. reflexivity.
  - apply (proj2 solve_near_zero_denominator
             (Binary64.terminaAfter [Binary64.parting; Binary64.parting; Binary64.parting])).
    vm_compute. reflexivity.
Defined.

(** C3 fails in variant B: on three events whose pain and joy cancel,
    [solvePrimeMover] throws an error that has no code at all, hence not
    the code "02". *)
Lemma solvePrimeMover_collapse_has_no_code :
  Binary64.ltb
    (Binary64.Math_abs
       (Binary64.Termina.joySum [Binary64.parting; Binary64.parting; Binary64.parting]
        - Binary64.Termina.painSum [Binary64.parting; Binary64.parting; Binary64.parting]))
    1e-9 = true
  /\ exists e : Error,
       fst (Binary64.Termina.solvePrimeMover
              (Binary64.terminaAfter [Binary64.parting; Binary64.parting; Binary64.parting]))
       = Throw e
       /\ code e = None
       /\ code e <> Some "02"%string.
Proof.
  split; [vm_compute; reflexivity|].
  eexists. split; [vm_compute; reflexivity|]. split; [reflexivity | discriminate].
Qed.

(** *** C6 *)

Lemma Omega_ingestEvent_self64 (ev : Binary64.WorldEvent)
    (w : Binary64.World Binary64.Omega.OmegaCore) :
  fst (Binary64.Omega.ingestEvent ev w) = Normal tt
  /\ exists ext,
       Binary64.self (snd (Binary64.Omega.ingestEvent ev w))
       = Binary64.OmegaSpec.appendLog ext
           (Binary64.OmegaSpec.ingested ev (Binary64.nextRandom w) (Binary64.self w)).
Proof.
  destruct (OmegaFacts64.ingestEvent_run64 ev w) as (ext & k & ->).
  split; [reflexivity | now exists ext].
Qed.

Lemma Termina_ingestEvent_self64 (ev : Binary64.WorldEvent)
    (w : Binary64.World Binary64.Termina.TerminaCore) :
  fst (Binary64.Termina.ingestEvent ev w) = Normal tt
  /\ Binary64.self (snd (Binary64.Termina.ingestEvent ev w))
     = Binary64.TerminaSpec.ingested ev (Binary64.nextRandom w) (Binary64.self w).
Proof.
  destruct (TerminaFacts64.ingestEvent_posts64 ev w) as (ext & k & ->).
  split; reflexivity.
Qed.

Lemma noise_bound64 (c : Binary64.Catalyst) (r : Binary64.number) :
  Binary64.leb 0 r = true -> Binary64.ltb r 1 = true ->
  Binary64.leb (Binary64.Math_abs (r * 2 - 1)) 1 = true
  /\ (is_finite (Binary64.emotionalNoise c) = true ->
      Binary64.leb (Binary64.Math_abs (Binary64.noiseOf c r))
        (Binary64.Math_abs (Binary64.emotionalNoise c)) = true
      /\ (Binary64.leb 0 (Binary64.emotionalNoise c) = true ->
          Binary64.leb (Binary64.Math_abs (Binary64.noiseOf c r))
            (Binary64.emotionalNoise c) = true)).
Proof.
  intros H0 H1.
  pose proof (Rounding64.doubled_minus_one r H0 H1) as Hu.
  split; [exact Hu|]. intros Hf.
  pose proof (Rounding64.mul_abs_le (Binary64.emotionalNoise c) (r * 2 - 1) Hf Hu) as Hb.
  split; [exact Hb|]. intros Hpos.
  now apply Rounding64.leb_abs_nonneg.
Qed.

(** C6: [ingestEvent] returns, sets [wrath] to
    [max(0, wrath + deltaWrath + noise)] and [entropy] to
    [entropy + max(0, deltaEntropy + |noise| * 0.25)], in both variants,
    where [deltaWrath = pain + (2 if betrayal) - (0.5 if kindness)],
    [deltaEntropy = |pain| + |joy| + (5 if death)] and
    [noise = emotionalNoise * (r * 2 - 1)] for the draw [r] of
    [Math.random], every operation being the binary64 one, in the order of
    the code.  For a draw in [0, 1) the factor [r * 2 - 1] lies in
    [[-1, 1]] and, [emotionalNoise] being finite,
    [|noise| <= |emotionalNoise|], which is [emotionalNoise] when that is
    not negative. *)
Theorem ingestEvent_update (ev : Binary64.WorldEvent) :
  (forall w : Binary64.World Binary64.Omega.OmegaCore,
      fst (Binary64.Omega.ingestEvent ev w) = Normal tt
      /\ Binary64.Omega.wrath (Binary64.self (snd (Binary64.Omega.ingestEvent ev w)))
         = Binary64.Math_max 0
             (Binary64.Omega.wrath (Binary64.self w) + Binary64.Omega.deltaWrath ev
              + Binary64.noiseOf (Binary64.Omega.catalyst (Binary64.self w))
                  (Binary64.nextRandom w))
      /\ Binary64.Omega.entropy (Binary64.self (snd (Binary64.Omega.ingestEvent ev w)))
         = Binary64.Omega.entropy (Binary64.self w)
           + Binary64.Math_max 0
               (Binary64.Omega.deltaEntropy ev
                + Binary64.Math_abs
                    (Binary64.noiseOf (Binary64.Omega.catalyst (Binary64.self w))
                       (Binary64.nextRandom w))
                  * 0.25))
  /\ (forall w : Binary64.World Binary64.Termina.TerminaCore,
         fst (Binary64.Termina.ingestEvent ev w) = Normal tt
         /\ Binary64.Termina.wrath
              (Binary64.self (snd (Binary64.Termina.ingestEvent ev w)))
            = Binary64.Math_max 0
                (Binary64.Termina.wrath (Binary64.self w) + Binary64.Termina.deltaWrath ev
                 + Binary64.noiseOf (Binary64.Termina.catalyst (Binary64.self w))
                     (Binary64.nextRandom w))
         /\ Binary64.Termina.entropy
              (Binary64.self (snd (Binary64.Termina.ingestEvent ev w)))
            = Binary64.Termina.entropy (Binary64.self w)
              + Binary64.Math_max 0
                  (Binary64.Termina.deltaEntropy ev
                   + Binary64.Math_abs
                       (Binary64.noiseOf (Binary64.Termina.catalyst (Binary64.self w))
                          (Binary64.nextRandom w))
                     * 0.25))
  /\ Binary64.Omega.deltaWrath ev
     = Binary64.pain ev + (if Binary64.betrayal ev then 2 else 0)
       - (if Binary64.kindness ev then 0.5 else 0)
  /\ Binary64.Termina.deltaWrath ev = Binary64.Omega.deltaWrath ev
  /\ Binary64.Omega.deltaEntropy ev
     = Binary64.Math_abs (Binary64.pain ev) + Binary64.Math_abs (Binary64.joy ev)
       + (if Binary64.death ev then 5 else 0)
  /\ Binary64.Termina.deltaEntropy ev = Binary64.Omega.deltaEntropy ev
  /\ (forall (c : Binary64.Catalyst) (r : Binary64.number),
         Binary64.noiseOf c r = Binary64.emotionalNoise c * (r * 2 - 1)
         /\ (Binary64.leb 0 r = true -> Binary64.ltb r 1 = true ->
             Binary64.leb (Binary64.Math_abs (r * 2 - 1)) 1 = true
             /\ (is_finite (Binary64.emotionalNoise c) = true ->
                 Binary64.leb (Binary64.Math_abs (Binary64.noiseOf c r))
                   (Binary64.Math_abs (Binary64.emotionalNoise c)) = true
                 /\ (Binary64.leb 0 (Binary64.emotionalNoise c) = true ->
                     Binary64.leb (Binary64.Math_abs (Binary64.noiseOf c r))
                       (Binary64.emotionalNoise c) = true)))).
Proof.
  split; [| split].
  - intros w. destruct (Omega_ingestEvent_self64 ev w) as (E1 & ext & E2).
    rewrite E1, E2. repeat split.
  - intros w. destruct (Termina_ingestEvent_self64 ev w) as (E1 & E2).
    rewrite E1, E2. repeat split.
  - split; [| split; [reflexivity | split; [reflexivity | split; [reflexivity|]]]].
    + unfold Binary64.Omega.deltaWrath.
      destruct (Binary64.kindness ev); [reflexivity|]. symmetry. apply Rounding64.sub_zero.
    + intros c r. split; [reflexivity | apply noise_bound64].
Qed.

Lemma ingestEvent_update_witness :
  Binary64.leb (Binary64.Math_abs (Binary64.noiseOf (Binary64.Harker 3.5) 0.25)) 3.5 = true.
Proof.
  apply (proj2 (proj2 (proj2 (proj2 (proj2 (proj2 (ingestEvent_update Binary64.laugh))))))
           (Binary64.Harker 3.5) 0.25).
  - vm_compute. reflexivity.
  - vm_compute. reflexivity.
  - vm_compute. reflexivity.
  - vm_compute. reflexivity.
Defined.
